(** * ge3t_shim_tool: the ExSI command channel and the all-slice sweep

    A shallow embedding of [exsi_client.py] (class [exsi]) and of the
    all-slice sweep of [ExsiGui.py], with the properties of the command
    protocol engine stated over it.

    Conventions of the embedding.
    - Text is [string], one [ascii] per character: the protocol carries
      ASCII, for which Python's [str] indices and UTF-8 byte offsets agree.
    - Python integers are unbounded: the counter is a [nat], indices that
      may be [-1] are [Z].
    - A method of the class is a function [chan -> outcome A]: it returns,
      raises, or blocks its calling thread, each with the channel state it
      leaves behind.
    - Writes to the output file are kept as a list of lines and are taken
      to succeed; a write to the socket takes its whole buffer.
    - The threads of a channel are interleaved at the grain of one call of
      [send], one turn of the receive loop and one move of the command
      processor. *)

From Stdlib Require Import String Ascii List ZArith Lia Bool Arith.
From Stdlib Require Import Decimal DecimalString.
Import ListNotations.

Local Open Scope string_scope.
Local Open Scope list_scope.

(** ** Python text operations used by the client *)

Module Py.

(** [len(s)] *)
Definition len (s : string) : Z := Z.of_nat (String.length s).

(** [s.startswith(p)] *)
Definition startswith (s p : string) : bool := String.prefix p s.

(** [s.find(sub)] as an optional offset ... *)
Fixpoint find_opt (sub s : string) : option nat :=
  if String.prefix sub s then Some 0%nat
  else match s with
       | EmptyString => None
       | String _ rest => option_map S (find_opt sub rest)
       end.

(** ... and with Python's [-1] for "absent". *)
Definition find (s sub : string) : Z :=
  match find_opt sub s with
  | Some i => Z.of_nat i
  | None => (-1)%Z
  end.

(** [sub in s] *)
Definition contains (sub s : string) : bool :=
  match find_opt sub s with Some _ => true | None => false end.

(** Clamping of one slice bound: a negative bound counts from the end. *)
Definition bound (n i : Z) : Z :=
  if (i <? 0)%Z then Z.max 0 (n + i) else Z.min i n.

(** [s[start:stop]] *)
Definition slice (s : string) (start stop : Z) : string :=
  let lo := bound (len s) start in
  let hi := bound (len s) stop in
  String.substring (Z.to_nat lo) (Z.to_nat (hi - lo)) s.

(** [s[start:]] *)
Definition slice_from (s : string) (start : Z) : string :=
  slice s start (len s).

(** [s.split(sep)] for a one-character separator: never an empty list. *)
Fixpoint split (sep : ascii) (s : string) : list string :=
  match s with
  | EmptyString => [EmptyString]
  | String c rest =>
      if Ascii.eqb c sep then EmptyString :: split sep rest
      else match split sep rest with
           | [] => [String c EmptyString]
           | piece :: pieces => String c piece :: pieces
           end
  end.

(** [str(n)] for a non-negative integer. *)
Definition str (n : nat) : string := NilEmpty.string_of_uint (Nat.to_uint n).

(** the regex class [\d] on ASCII text *)
Definition is_digit (c : ascii) : bool :=
  let n := nat_of_ascii c in (48 <=? n)%nat && (n <=? 57)%nat.

(** the negative look-ahead [(?!\d+)] at the head of [s]: it fails exactly
    when one digit follows. *)
Definition no_digit_ahead (s : string) : bool :=
  match s with
  | EmptyString => true
  | String c _ => negb (is_digit c)
  end.

(** [s.encode('utf-8')] on ASCII text: one byte per character. *)
Definition encode (s : string) : list Z :=
  map (fun c => Z.of_N (N_of_ascii c)) (list_ascii_of_string s).

End Py.

(** ** [struct.pack] in network byte order *)

Module struct.

Definition byte_at (x : Z) (k : Z) : Z := Z.land (Z.shiftr x (8 * k)) 255.

(** [struct.pack('!H', x)]: [struct.error] ([None]) outside 16 bits. *)
Definition pack_H (x : Z) : option (list Z) :=
  if ((0 <=? x) && (x <? 2 ^ 16))%Z
  then Some [byte_at x 1; byte_at x 0]
  else None.

(** [struct.pack('!I', x)]: [struct.error] ([None]) outside 32 bits. *)
Definition pack_I (x : Z) : option (list Z) :=
  if ((0 <=? x) && (x <? 2 ^ 32))%Z
  then Some [byte_at x 3; byte_at x 2; byte_at x 1; byte_at x 0]
  else None.

(** Reading a big-endian field back, as the peer does. *)
Fixpoint unpack_be (bs : list Z) (acc : Z) : Z :=
  match bs with
  | [] => acc
  | b :: rest => unpack_be rest (Z.lor (Z.shiftl acc 8) b)
  end.

End struct.

(** ** The channel: class [exsi] *)

Module exsi.

(** Exceptions the modelled code can raise. *)
Inductive exn : Type :=
| AttributeError   (* a method looked up on [None] *)
| TypeError        (* [str + None] *)
| StructError      (* [struct.error]: value out of range for its field *)
| RuntimeError     (* [Thread.join] on the current thread *)
| TimeoutError.

(** [str(e)], up to the wording of the message. *)
Definition str_exn (e : exn) : string :=
  match e with
  | AttributeError => "'NoneType' object has no attribute 'startswith'"
  | TypeError => "can only concatenate str to str"
  | StructError => "argument out of range"
  | RuntimeError => "cannot join current thread"
  | TimeoutError => "Timed out waiting for the MRI machine to be ready."
  end.

(** The threads that run code of the class. *)
Inductive thread : Type := Caller | Receiving | CommandProcessor.

Definition thread_eqb (a b : thread) : bool :=
  match a, b with
  | Caller, Caller | Receiving, Receiving
  | CommandProcessor, CommandProcessor => true
  | _, _ => false
  end.

(** The instance attributes. [command_queue] holds command texts and the
    [None] sentinel that [stop] puts; [last_command] is whatever
    [_send_command] was last given. [s_out] is the byte stream written to
    the socket [s]. The two [_joined] flags record a completed
    [Thread.join]. *)
Record chan : Type := Chan {
  counter : nat;
  running : bool;
  ready_event : bool;
  command_queue : list (option string);
  last_command : option string;
  task_queue : list string;
  s_out : list Z;
  s_closed : bool;
  output_file : list string;
  receiving_thread_joined : bool;
  command_processor_thread_joined : bool
}.

Definition set_counter (n : nat) (c : chan) : chan :=
  Chan n (running c) (ready_event c) (command_queue c) (last_command c)
       (task_queue c) (s_out c) (s_closed c) (output_file c)
       (receiving_thread_joined c) (command_processor_thread_joined c).
Definition set_running (b : bool) (c : chan) : chan :=
  Chan (counter c) b (ready_event c) (command_queue c) (last_command c)
       (task_queue c) (s_out c) (s_closed c) (output_file c)
       (receiving_thread_joined c) (command_processor_thread_joined c).
Definition set_ready_event (b : bool) (c : chan) : chan :=
  Chan (counter c) (running c) b (command_queue c) (last_command c)
       (task_queue c) (s_out c) (s_closed c) (output_file c)
       (receiving_thread_joined c) (command_processor_thread_joined c).
Definition set_command_queue (q : list (option string)) (c : chan) : chan :=
  Chan (counter c) (running c) (ready_event c) q (last_command c)
       (task_queue c) (s_out c) (s_closed c) (output_file c)
       (receiving_thread_joined c) (command_processor_thread_joined c).
Definition set_last_command (l : option string) (c : chan) : chan :=
  Chan (counter c) (running c) (ready_event c) (command_queue c) l
       (task_queue c) (s_out c) (s_closed c) (output_file c)
       (receiving_thread_joined c) (command_processor_thread_joined c).
Definition set_task_queue (q : list string) (c : chan) : chan :=
  Chan (counter c) (running c) (ready_event c) (command_queue c)
       (last_command c) q (s_out c) (s_closed c) (output_file c)
       (receiving_thread_joined c) (command_processor_thread_joined c).
Definition set_s_out (o : list Z) (c : chan) : chan :=
  Chan (counter c) (running c) (ready_event c) (command_queue c)
       (last_command c) (task_queue c) o (s_closed c) (output_file c)
       (receiving_thread_joined c) (command_processor_thread_joined c).
Definition set_s_closed (b : bool) (c : chan) : chan :=
  Chan (counter c) (running c) (ready_event c) (command_queue c)
       (last_command c) (task_queue c) (s_out c) b (output_file c)
       (receiving_thread_joined c) (command_processor_thread_joined c).
Definition set_output_file (f : list string) (c : chan) : chan :=
  Chan (counter c) (running c) (ready_event c) (command_queue c)
       (last_command c) (task_queue c) (s_out c) (s_closed c) f
       (receiving_thread_joined c) (command_processor_thread_joined c).
Definition set_joined (t : thread) (c : chan) : chan :=
  Chan (counter c) (running c) (ready_event c) (command_queue c)
       (last_command c) (task_queue c) (s_out c) (s_closed c) (output_file c)
       (match t with Receiving => true | _ => receiving_thread_joined c end)
       (match t with CommandProcessor => true
                   | _ => command_processor_thread_joined c end).

(** What a call does to its thread: it returns a value, raises, or blocks
    for ever on an empty [queue.Queue]. *)
Inductive outcome (A : Type) : Type :=
| Returns (a : A) (c : chan)
| Raises (e : exn) (c : chan)
| Blocks (c : chan).
Arguments Returns {A} a c.
Arguments Raises {A} e c.
Arguments Blocks {A} c.

Definition M (A : Type) : Type := chan -> outcome A.

Definition ret {A} (a : A) : M A := fun c => Returns a c.
Definition raise {A} (e : exn) : M A := fun c => Raises e c.
Definition bind {A B} (m : M A) (k : A -> M B) : M B :=
  fun c => match m c with
           | Returns a c' => k a c'
           | Raises e c' => Raises e c'
           | Blocks c' => Blocks c'
           end.
Definition modify (f : chan -> chan) : M unit := fun c => Returns tt (f c).

Definition after {A} (o : outcome A) : chan :=
  match o with Returns _ c | Raises _ c | Blocks c => c end.

Declare Scope chan_scope.
Delimit Scope chan_scope with chan.
Notation "m ;; k" := (bind m (fun _ => k))
  (at level 61, right associativity) : chan_scope.
Notation "x <- m ;; k" := (bind m (fun x => k))
  (at level 61, m at next level, right associativity) : chan_scope.
Local Open Scope chan_scope.

(** [with open(self.output_file, 'a') as file: file.write(line)] *)
Definition write_output (line : string) : M unit :=
  modify (fun c => set_output_file (output_file c ++ [line]) c).

(** [self.s.send(struct.pack(...))]: the pack may raise. *)
Definition s_send_packed (field : option (list Z)) : M unit :=
  match field with
  | Some bytes => modify (fun c => set_s_out (s_out c ++ bytes) c)
  | None => raise StructError
  end.

(** The payload [tcmd] of a frame. *)
Definition tcmd_of (n : nat) (cmd : string) : list Z :=
  Py.encode ">heartvista:1:" ++ Py.encode (Py.str n)
    ++ Py.encode ">" ++ Py.encode cmd.

(** [_send_command(cmd)]; [cmd] is [None] for the sentinel of [stop]. *)
Definition _send_command (cmd : option string) : M unit :=
  modify (set_ready_event false) ;;
  modify (set_last_command cmd) ;;
  match cmd with
  | None => raise AttributeError
  | Some text =>
      fun c =>
        let tcmd := tcmd_of (counter c) text in
        (modify (set_counter (counter c + 1)) ;;
         s_send_packed (struct.pack_H 16) ;;
         s_send_packed (struct.pack_H 1000) ;;
         s_send_packed (struct.pack_I (Z.of_nat (List.length tcmd))) ;;
         s_send_packed (struct.pack_I 0) ;;
         s_send_packed (struct.pack_I 100) ;;
         s_send_packed (Some tcmd)) c
  end.

(** [re.search("SelectTask taskkey=(?!\d+)", cmd) is not None]: some
    occurrence of the literal is not followed by a digit. *)
Definition select_literal : string := "SelectTask taskkey=".

Fixpoint keyless_selection (cmd : string) : bool :=
  (String.prefix select_literal cmd
   && Py.no_digit_ahead
        (Py.slice_from cmd (Py.len select_literal)))
  || match cmd with
     | EmptyString => false
     | String _ rest => keyless_selection rest
     end.

(** [command_queue.put(item)] *)
Definition put_command (item : option string) : M unit :=
  modify (fun c => set_command_queue (command_queue c ++ [item]) c).

(** [task_queue.get()]: blocks while the queue is empty. *)
Definition get_task : M string :=
  fun c => match task_queue c with
           | [] => Blocks c
           | task :: rest => Returns task (set_task_queue rest c)
           end.

(** [send(cmd, immediate)] *)
Definition send (cmd : string) (immediate : bool) : M unit :=
  if immediate then _send_command (Some cmd)
  else if keyless_selection cmd then
         tasktodo <- get_task ;;
         put_command (Some (cmd ++ tasktodo)%string)
       else put_command (Some cmd).

(** [rcv]: the decoded text from just after its first ['<']. *)
Definition rcv (data : string) : string :=
  Py.slice_from data (Py.find data "<" + 1).

(** [clear_command_queue] *)
Definition clear_command_queue : M unit :=
  modify (set_command_queue []) ;;
  write_output "Command queue cleared due to failure.
".

Section Classifier.

(** Line 119 of the source, the body of the [Prescan] rule, is garbled
    ([ww    ready = "Prescan" in msg]); what it computes from the
    message is left open. *)
Variable prescan_ready : string -> bool.

(** [is_ready(msg)]: the pair [(success, ready)]. *)
Definition is_ready (msg : string) : M (bool * bool) :=
  if Py.contains "fail" msg then ret (false, true)
  else
    fun c =>
      match last_command c with
      | None => Raises AttributeError c
      | Some last =>
          if Py.startswith last "Scan" then
            Returns (true, Py.contains "acquisition=complete" msg) c
          else if Py.startswith last "ActivateTask" then
            Returns (true, Py.contains "ActivateTask=" msg) c
          else if Py.startswith last "SelectTask" then
            Returns (true, Py.contains "SelectTask=" msg) c
          else if Py.startswith last "PatientTable" then
            Returns (true, Py.contains "PatientTable=" msg) c
          else if Py.startswith last "LoadProtocol" then
            let tasks :=
              Py.split ","
                (Py.slice msg (Py.find msg "taskKeys=" + 9) (-2)) in
            Returns (true, Py.contains "LoadProtocol=" msg)
                    (set_task_queue (task_queue c ++ tasks) c)
          else if Py.startswith last "SetCVs" then
            Returns (true, Py.contains "SetCVs" msg) c
          else if Py.startswith last "Prescan" then
            Returns (true, prescan_ready msg) c
          else if Py.startswith last "SetGrxSlices" then
            Returns (true, true) c
          else if Py.startswith last "SetGrxsomething...." then
            Returns (true, true) c
          else if Py.startswith last "Help" then
            Returns (true, Py.contains "Help" msg) c
          else
            Returns (true, Py.contains "NotifyEvent" msg) c
      end.

(** What [self.s.recv] gives one iteration of the receive loop. *)
Inductive received : Type :=
| Data (data : string)
| SocketTimeout
| OtherException (text : string).

(** ["Command Failed: " + self.last_command + ...]: a [TypeError] when
    [last_command] is [None]. *)
Definition failure_notice : M string :=
  fun c => match last_command c with
           | Some last =>
               Returns ("Command Failed: " ++ last ++ "
Clearing Command Queue

")%string c
           | None => Raises TypeError c
           end.

(** The [try] block of [receive_loop] on a non-empty message. *)
Definition receive_try (msg : string) : M unit :=
  answer <- is_ready msg ;;
  write_output ("Received: " ++ msg ++ "
")%string ;;
  (if fst answer then ret tt
   else notify <- failure_notice ;;
        write_output notify ;;
        clear_command_queue) ;;
  (if snd answer then modify (set_ready_event true) else ret tt).

(** One iteration of [receive_loop]; the boolean tells whether the loop
    goes on ([continue]) or was left ([break]). *)
Definition receive_iteration (r : received) (c : chan) : chan * bool :=
  match r with
  | SocketTimeout => (c, true)
  | OtherException text =>
      (after (write_output ("Error receiving data: " ++ text ++ "
!!!Please Restart the Client!!!
")%string c), false)
  | Data data =>
      let msg := rcv data in
      if (String.length msg =? 0)%nat then (c, true)
      else match receive_try msg c with
           | Returns _ c' => (c', true)
           | Raises e c' =>
               (after (write_output ("Error receiving data: "
                                     ++ str_exn e ++ "
!!!Please Restart the Client!!!
")%string c'), false)
           | Blocks c' => (c', true)
           end
  end.

(** [receive_loop] over what the socket delivers. *)
Fixpoint receive_loop (rs : list received) (c : chan) : chan :=
  match rs with
  | [] => c
  | r :: rest =>
      if running c then
        let (c', go) := receive_iteration r c in
        if go then receive_loop rest c' else c'
      else c
  end.

End Classifier.

(** [Thread.join] called by thread [me] on thread [t]: joining oneself
    raises; joining another thread returns once that thread has ended. *)
Definition join (me t : thread) : M unit :=
  if thread_eqb me t then raise RuntimeError
  else modify (set_joined t).

(** [stop()], run by thread [me]. *)
Definition stop (me : thread) : M unit :=
  modify (set_running false) ;;
  put_command None ;;
  join me Receiving ;;
  join me CommandProcessor ;;
  modify (set_s_closed true).

(** [wait_for_ready(timeout)], run by thread [me], from the point where
    [ready_event.wait(timeout)] has returned [ready]. *)
Definition wait_for_ready (me : thread) (ready : bool) : M unit :=
  if ready then modify (set_ready_event false)
  else stop me ;; raise TimeoutError.

(** Where the command processor thread stands in [process_commands]. *)
Inductive pc : Type :=
| Polling      (* at the test of [while self.running] *)
| Getting      (* inside [command_queue.get(timeout=1)] *)
| Sending (cmd : option string)
               (* [get] has returned [cmd]; before [_send_command(cmd)] *)
| Entering     (* [_send_command] has returned; before [ready_event.wait] *)
| Waiting      (* inside [ready_event.wait], not signalled *)
| Woken        (* inside [ready_event.wait], signalled: it returns true *)
| Ended.       (* the thread has ended *)

(** What happens on the channel, for the record of a run. *)
Inductive event : Type :=
| Sent (cmd : string)   (* the command processor's [_send_command(cmd)]
                           returned *)
| Signalled             (* the receive loop's [ready_event.set()] raised the
                           flag *)
| Resolved.             (* the command processor's [wait_for_ready]
                           returned *)

(** One move of the command processor thread from [p].
    - [Polling]: the loop test.
    - [Getting]: [get] returns the head of the queue, or, the queue being
      empty when its second has passed, raises [queue.Empty] and the loop
      continues.
    - [Sending]: [_send_command]; an exception ends the thread.
    - [Entering]: [ready_event.wait] looks at the flag: set, it returns at
      once; clear, the thread blocks.
    - [Waiting]: the bound passes with no signal: [wait] returns false.
    - [Woken]: [wait] returns true.
    ([task_done] only counts finished items and is left out.) *)
Definition process_commands (p : pc) (c : chan)
  : pc * chan * list event :=
  match p with
  | Polling => if running c then (Getting, c, []) else (Ended, c, [])
  | Getting =>
      match command_queue c with
      | [] => (Polling, c, [])
      | cmd :: rest => (Sending cmd, set_command_queue rest c, [])
      end
  | Sending cmd =>
      match _send_command cmd c with
      | Returns _ c' =>
          (Entering, c',
           match cmd with Some text => [Sent text] | None => [] end)
      | Raises _ c' => (Ended, c', [])
      | Blocks c' => (Sending cmd, c', [])
      end
  | Entering => if ready_event c then (Woken, c, []) else (Waiting, c, [])
  | Waiting =>
      match wait_for_ready CommandProcessor false c with
      | Returns _ c' => (Polling, c', [Resolved])
      | Raises _ c' => (Ended, c', [])
      | Blocks c' => (Waiting, c', [])
      end
  | Woken =>
      match wait_for_ready CommandProcessor true c with
      | Returns _ c' => (Polling, c', [Resolved])
      | Raises _ c' => (Ended, c', [])
      | Blocks c' => (Woken, c', [])
      end
  | Ended => (Ended, c, [])
  end.

(** The command processor after a turn of the receive loop that left the
    channel as [c']: blocked in [ready_event.wait] it is signalled when the
    flag is up. (A thread blocks in [wait] only on a clear flag, and only
    [set()] raises the flag and signals.) *)
Definition wake (p : pc) (c' : chan) : pc :=
  match p with
  | Waiting => if ready_event c' then Woken else Waiting
  | _ => p
  end.

(** The command text the command processor has taken off the queue and not
    yet sent. *)
Definition held (p : pc) : list string :=
  match p with
  | Sending (Some text) => [text]
  | _ => []
  end.

(** How many commands the command processor can still send once the running
    flag is cleared. *)
Definition may_send (p : pc) : nat :=
  match p with
  | Getting | Sending _ => 1
  | _ => 0
  end.

(** The channel as [__init__] leaves it before its two [send] calls. *)
Definition init : chan :=
  Chan 0 true false [] (Some "") [] [] false [] false false.

(** *** The channel with its threads

    The caller, the receiving thread and the command processor thread
    interleave; a run is the list of their moves in the order they take
    effect. Beside the channel, the state keeps where the command
    processor stands, whether the receive loop is still running, and
    three records used only to state properties: the texts put on the
    command queue by [send], the texts taken off it without being sent,
    and the events of the run. *)

Record sys : Type := Sys {
  ch : chan;
  cp : pc;
  receiving : bool;
  enqueued : list string;
  discarded : list string;
  trace : list event
}.

Inductive move : Type :=
| CallSend (cmd : string) (immediate : bool)  (* a caller runs [send] *)
| Receive (r : received)       (* the receive loop takes one turn *)
| Process                      (* the command processor moves *)
| CallStop.                    (* a caller enters [stop] *)

(** The command texts among queue items. *)
Fixpoint texts (q : list (option string)) : list string :=
  match q with
  | [] => []
  | Some text :: rest => text :: texts rest
  | None :: rest => texts rest
  end.

(** The events that are sends, as texts. *)
Fixpoint sent (tr : list event) : list string :=
  match tr with
  | [] => []
  | Sent text :: rest => text :: sent rest
  | Signalled :: rest | Resolved :: rest => sent rest
  end.




(** The reading of line 119 without its stray token, for concrete runs. *)
Definition prescan_as_read (msg : string) : bool :=
  Py.contains "Prescan" msg.

(** The prefixes with a rule of their own, in the order they are tried. *)
Definition specific_rules : list string :=
  ["Scan"; "ActivateTask"; "SelectTask"; "PatientTable"; "LoadProtocol";
   "SetCVs"; "Prescan"; "SetGrxSlices"; "SetGrxsomething...."; "Help"].

Section Threads.

Variable prescan_ready : string -> bool.

Definition step (s : sys) (m : move) : sys :=
  let q := command_queue (ch s) in
  match m with
  | CallSend cmd immediate =>
      let c' := after (send cmd immediate (ch s)) in
      Sys c' (cp s) (receiving s)
          (enqueued s
             ++ texts (skipn (List.length q) (command_queue c')))
          (discarded s) (trace s)
  | Receive r =>
      if receiving s then
        if running (ch s) then
          let (c', go) := receive_iteration prescan_ready r (ch s) in
          Sys c' (wake (cp s) c') go (enqueued s)
              (discarded s
                 ++ texts (firstn (List.length q
                                   - List.length (command_queue c')) q))
              (trace s
                 ++ if negb (ready_event (ch s)) && ready_event c'
                    then [Signalled] else [])
        else Sys (ch s) (cp s) false (enqueued s) (discarded s) (trace s)
      else s
  | Process =>
      let '(p', c', evs) := process_commands (cp s) (ch s) in
      Sys c' p' (receiving s) (enqueued s)
          (discarded s
             ++ match p' with Ended => held (cp s) | _ => [] end)
          (trace s ++ evs)
  | CallStop =>
      Sys (after ((modify (set_running false) ;; put_command None) (ch s)))
          (cp s) (receiving s) (enqueued s) (discarded s) (trace s)
  end.

Definition run (ms : list move) (s : sys) : sys := fold_left step ms s.

Definition start : sys := Sys init Polling true [] [] [].

End Threads.



End exsi.

(** ** The all-slice sweep of [ExsiGui]

    The connection and calibration guards of the decorators are taken to
    hold. [currents] has one entry per slice, [None] where the solver found
    no vector; [computeShimCurrents] builds it with [shape[1]] entries, the
    bound of the counting loop. *)

Module ExsiGui.

Inductive exn : Type :=
| TypeError      (* [None + 1], [None[0]] *)
| IndexError.    (* [currents[idx]] past the end *)

Section Sweep.

(** A solved CurrentVector. *)
Variable vector : Type.

(** The counting loop of [doAllShimmedScans], from slice [i] on. *)
Fixpoint count_solved (currents : list (option vector)) (i : nat)
         (startindex : option nat) (numindexes : Z) : option nat * Z :=
  match currents with
  | [] => (startindex, numindexes)
  | current :: rest =>
      let startindex :=
        match startindex, current with
        | None, Some _ => Some i
        | _, _ => startindex
        end in
      let numindexes :=
        match current with
        | Some _ => (numindexes + 1)%Z
        | None => numindexes
        end in
      count_solved rest (S i) startindex numindexes
  end.

(** [range(start, start + n)] *)
Definition range (start : nat) (n : Z) : list nat :=
  seq start (Z.to_nat n).

(** How [doAllShimmedScans] ends: it returns at once, it raises, or it
    starts its two workers on [range(startindex, startindex+numindexes)]. *)
Inductive launch : Type :=
| NotStarted
| Raised (e : exn)
| Started (startindex : nat) (numindexes : Z).

Definition doAllShimmedScans (currentsComputed : bool)
           (currents : list (option vector)) : launch :=
  if currentsComputed then
    match count_solved currents 0 None 0 with
    | (None, _) => Raised TypeError
    | (Some startindex, numindexes) =>
        Started (startindex + 1) (numindexes - 2)
    end
  else NotStarted.

(** The worker [queueAll]: one [queueBasisPairScan()], two scans, per
    index. *)
Definition queueAll (startindex : nat) (numindexes : Z) : list nat :=
  map (fun _ => 2%nat) (range startindex numindexes).

(** One verification run of [waitdoAllShimmedScans]: the slice, the
    number of scans [countScansCompleted] waits for, and whether they
    completed (then the slice's result is shown). *)
Record run : Type := Run { slice : nat; scans : nat; completed : bool }.

(** The loop of [waitdoAllShimmedScans] over its indices: the runs made,
    and the exception that ended the worker, if any. [scanned idx]
    tells whether the two scans of slice [idx] complete in time. *)
Fixpoint visit (currents : list (option vector)) (scanned : nat -> bool)
         (idxs : list nat) : list run * option exn :=
  match idxs with
  | [] => ([], None)
  | idx :: rest =>
      match nth_error currents idx with
      | None => ([], Some IndexError)
      | Some None => ([], Some TypeError)
      | Some (Some _) =>
          let (runs, e) := visit currents scanned rest in
          (Run idx 2 (scanned idx) :: runs, e)
      end
  end.

Definition waitdoAllShimmedScans (currents : list (option vector))
           (scanned : nat -> bool) (start : nat) (numindex : Z)
  : list run * option exn :=
  visit currents scanned (range start numindex).

(** The slices the sweep runs a verification on, from the button press
    to the end of the worker. *)
Definition swept (currentsComputed : bool)
           (currents : list (option vector)) (scanned : nat -> bool)
  : list nat :=
  match doAllShimmedScans currentsComputed currents with
  | Started startindex numindexes =>
      map slice
          (fst (waitdoAllShimmedScans currents scanned
                                      startindex numindexes))
  | _ => []
  end.

(** The slices that have a solved vector, from slice [i] on. *)
Fixpoint solved_from (currents : list (option vector)) (i : nat)
  : list nat :=
  match currents with
  | [] => []
  | Some _ :: rest => i :: solved_from rest (S i)
  | None :: rest => solved_from rest (S i)
  end.

(** Those slices without the first and the last of them. *)
Definition inner_solved (currents : list (option vector)) : list nat :=
  removelast (tl (solved_from currents 0)).

End Sweep.

End ExsiGui.

(** ** Further tables read off the source *)

(** The rules of [is_ready] that test the message for a marker, or are
    always ready ([None]), and change nothing: prefix of the last command,
    marker. *)
Definition plain_rules : list (string * option string) :=
  [("Scan", Some "acquisition=complete");
   ("ActivateTask", Some "ActivateTask=");
   ("SelectTask", Some "SelectTask=");
   ("PatientTable", Some "PatientTable=");
   ("SetCVs", Some "SetCVs");
   ("SetGrxSlices", None);
   ("SetGrxsomething....", None);
   ("Help", Some "Help")].

Definition rule_ready (marker : option string) (msg : string) : bool :=
  match marker with
  | Some m => Py.contains m msg
  | None => true
  end.

(** What changes nothing: a socket timeout, and data whose text after the
    first ['<'] is empty. *)
Definition quiet (r : exsi.received) : Prop :=
  r = exsi.SocketTimeout
  \/ exists data, r = exsi.Data data /\ exsi.rcv data = "".

(** [_send_command] called on each command of a list in turn. *)
Fixpoint send_each (cmds : list string) : exsi.M unit :=
  match cmds with
  | [] => exsi.ret tt
  | cmd :: rest =>
      exsi.bind (exsi._send_command (Some cmd)) (fun _ => send_each rest)
  end.

(** The frames of a list of commands numbered from [n] on, end to end;
    [None] when a payload does not fit its length field. *)
Fixpoint frames (n : nat) (cmds : list string) : option (list Z) :=
  match cmds with
  | [] => Some []
  | cmd :: rest =>
      let payload := exsi.tcmd_of n cmd in
      match struct.pack_I (Z.of_nat (List.length payload)),
            frames (S n) rest with
      | Some field, Some more =>
          Some ([0; 16; 3; 232]%Z ++ field
                  ++ [0; 0; 0; 0; 0; 0; 0; 100]%Z ++ payload ++ more)
      | _, _ => None
      end
  end.

(** ** The scan queues and the scan counter of [ExsiGui]

    The workflows hand commands to the client through its [send...]
    methods; a queue is the list of these calls in order. The texts the
    calls put on the wire belong to the client and are not part of this
    file. *)

Module ExsiGuiScans.

Inductive call : Type :=
| sendLoadProtocol (name : string)
| sendSelTask
| sendActTask
| sendSetShimValues (args : list Z)
| sendSetCenterFrequency (freq : Z)
| sendSetCV (name : string) (value : Z)
| sendPatientTable
| sendPrescan (auto : bool)
| sendScan.

Inductive exn : Type :=
| TypeError      (* [None[...]] *)
| IndexError.    (* an index past the end *)

(** [if linGrad:] holds of a non-empty list only. *)
Definition truthy (linGrad : option (list Z)) : bool :=
  match linGrad with
  | Some (_ :: _) => true
  | _ => false
  end.

Section Queues.

(** [int(self.exsiInstance.ogCenterFreq)] and [self.shimDeltaTE]. *)
Variable ogCenterFreq : Z.
Variable shimDeltaTE : Z.

(** One turn [i] of the loop of [queueBasisPairScanDetails];
    [autoPrescanDone] is the flag as the turn finds it. *)
Definition scan_turn (linGrad : option (list Z)) (i : nat)
           (autoPrescanDone : bool) : list call :=
  [sendSelTask; sendActTask]
    ++ (if truthy linGrad
        then [sendSetShimValues (match linGrad with Some l => l | None => [] end);
              sendSetCenterFrequency ogCenterFreq]
        else [])
    ++ [sendSetCV "act_tr" 3300;
        sendSetCV "act_te"
                  (if (i =? 0)%nat then 1104 else 1104 + shimDeltaTE)%Z;
        sendSetCV "rhrcctrl" 13;
        sendSetCV "rhimsize" 64;
        sendPatientTable;
        sendPrescan (negb autoPrescanDone);
        sendScan].

(** [queueBasisPairScanDetails(linGrad)]: the calls, and [autoPrescanDone]
    afterwards. *)
Definition queueBasisPairScanDetails (linGrad : option (list Z))
           (autoPrescanDone : bool) : list call * bool :=
  (scan_turn linGrad 0 autoPrescanDone ++ scan_turn linGrad 1 true, true).

(** [queueBasisPairScan(linGrad)] *)
Definition queueBasisPairScan (linGrad : option (list Z))
           (autoPrescanDone : bool) : list call * bool :=
  let (calls, done) := queueBasisPairScanDetails linGrad autoPrescanDone in
  (sendLoadProtocol "ConformalShimCalibration3" :: calls, done).

(** The protocol text of [queueCaliBasisPairScan] for a channel, an f-string
    over the channel and the calibration current. *)
Variable calibration_protocol : nat -> string.

(** [queueCaliBasisPairScan(channelNum)] *)
Definition queueCaliBasisPairScan (channelNum : nat)
           (autoPrescanDone : bool) : list call * bool :=
  let (calls, done) := queueBasisPairScanDetails None autoPrescanDone in
  (sendLoadProtocol (calibration_protocol channelNum) :: calls, done).

(** Running queueing steps one after the other. *)
Fixpoint in_turn (steps : list (bool -> list call * bool))
         (autoPrescanDone : bool) : list call * bool :=
  match steps with
  | [] => ([], autoPrescanDone)
  | step :: rest =>
      let (calls, done) := step autoPrescanDone in
      let (more, done') := in_turn rest done in
      (calls ++ more, done')
  end.

(** The worker [queueAll] of [doLoopCalibrationScans]. *)
Definition doLoopCalibrationScans_queueAll (withLinGrad : bool)
           (numLoops : nat) (autoPrescanDone : bool) : list call * bool :=
  in_turn
    ((if withLinGrad
      then [queueBasisPairScan (Some [20; 0; 0]%Z);
            queueBasisPairScan (Some [0; 20; 0]%Z);
            queueBasisPairScan (Some [0; 0; 20]%Z)]
      else [])
       ++ map queueCaliBasisPairScan (seq 0 numLoops))
    autoPrescanDone.

(** [num_scans] of [waitLoopCalibrtationScan]. *)
Definition waitLoopCalibrtationScan_num_scans (withLinGrad : bool)
           (numLoops : nat) : nat :=
  (numLoops + (if withLinGrad then 3 else 0)) * 2.

(** [num_scans] of [waitdoEvalAppliedShims]. *)
Definition waitdoEvalAppliedShims_num_scans (withLinGrad : bool)
           (numLoops : nat) : nat :=
  (numLoops + (if withLinGrad then 4 else 0)) * 2.

(** The number of [sendScan] calls, of task selections, of protocol loads,
    and of automatic prescans in a queue. *)
Definition is_scan (c : call) : bool :=
  match c with sendScan => true | _ => false end.
Definition is_sel (c : call) : bool :=
  match c with sendSelTask => true | _ => false end.
Definition is_load (c : call) : bool :=
  match c with sendLoadProtocol _ => true | _ => false end.
Definition is_auto_prescan (c : call) : bool :=
  match c with sendPrescan true => true | _ => false end.
Definition count (f : call -> bool) (calls : list call) : nat :=
  List.length (filter f calls).

(** The echo times set in a queue, in order. *)
Fixpoint echo_times (calls : list call) : list Z :=
  match calls with
  | [] => []
  | sendSetCV name value :: rest =>
      if String.eqb name "act_te" then value :: echo_times rest
      else echo_times rest
  | _ :: rest => echo_times rest
  end.

End Queues.

Section Evaluation.

Variable ogCenterFreq : Z.
Variable shimDeltaTE : Z.

(** The entries of a current vector, [int(round(x))] on them, and the
    protocol text of [doEvalAppliedShims] for a loop, an f-string over the
    loop and its entry. *)
Variable R : Type.
Variable round_int : R -> Z.
Variable eval_protocol : nat -> R -> string.

(** [self.currents[self.shimSliceIndex][k]] for the vector [current] of the
    selected slice, [None] when the slice is unsolved. *)
Definition entry (current : option (list R)) (k : nat) : exn + R :=
  match current with
  | None => inl TypeError
  | Some v =>
      match nth_error v k with
      | Some x => inr x
      | None => inl IndexError
      end
  end.

(** The loop over the corrective loops in [queueAll] of
    [doEvalAppliedShims]: the calls queued, [autoPrescanDone] afterwards, and
    the exception that ended the worker, if any. *)
Fixpoint eval_loops (current : option (list R)) (loops : list nat)
         (autoPrescanDone : bool) : list call * bool * option exn :=
  match loops with
  | [] => ([], autoPrescanDone, None)
  | i :: rest =>
      match entry current (i + 4) with
      | inl e => ([], autoPrescanDone, Some e)
      | inr x =>
          let (calls, done) :=
            queueBasisPairScanDetails ogCenterFreq shimDeltaTE None
                                      autoPrescanDone in
          let '(more, done', e) := eval_loops current rest done in
          (sendLoadProtocol (eval_protocol i x) :: calls ++ more, done', e)
      end
  end.

(** The worker [queueAll] of [doEvalAppliedShims]. *)
Definition doEvalAppliedShims_queueAll (withLinGrad : bool) (numLoops : nat)
           (current : option (list R)) (autoPrescanDone : bool)
  : list call * bool * option exn :=
  match entry current 0 with
  | inl e => ([], autoPrescanDone, Some e)
  | inr c0 =>
      let first := [sendSetCenterFrequency (ogCenterFreq + round_int c0)] in
      let (pair, done) :=
        queueBasisPairScan ogCenterFreq shimDeltaTE None autoPrescanDone in
      if withLinGrad then
        match entry current 1 with
        | inl e => (first ++ pair, done, Some e)
        | inr c1 =>
            let g := round_int c1 in
            let (grads, done1) :=
              in_turn
                [queueBasisPairScan ogCenterFreq shimDeltaTE (Some [g; 0; 0]%Z);
                 queueBasisPairScan ogCenterFreq shimDeltaTE (Some [0; g; 0]%Z);
                 queueBasisPairScan ogCenterFreq shimDeltaTE (Some [0; 0; g]%Z)]
                done in
            let '(loops, done2, e) :=
              eval_loops current (seq 0 numLoops) done1 in
            (first ++ pair ++ grads ++ loops, done2, e)
        end
      else
        let '(loops, done2, e) := eval_loops current (seq 0 numLoops) done in
        (first ++ pair ++ loops, done2, e)
  end.

End Evaluation.

(** [countScansCompleted(n)]. [failed i] tells whether [no_failures] is
    found cleared at turn [i], [arrives i] whether
    [images_ready_event.wait(timeout=90)] returns true at turn [i]. *)
Inductive counted : Type :=
| AllCompleted            (* the loop ran out: transfer, [return True] *)
| FailureSeen (i : nat)   (* [no_failures.set()], [return False] *)
| TimedOut (i : nat).     (* [return False] *)

Fixpoint count_turns (failed arrives : nat -> bool) (turns : list nat)
  : counted :=
  match turns with
  | [] => AllCompleted
  | i :: rest =>
      if failed i then FailureSeen i
      else if arrives i then count_turns failed arrives rest
           else TimedOut i
  end.

Definition countScansCompleted_end (failed arrives : nat -> bool) (n : nat)
  : counted :=
  count_turns failed arrives (seq 0 n).

(** The value returned, and whether [transferScanData] was called. *)
Definition countScansCompleted (failed arrives : nat -> bool) (n : nat)
  : bool :=
  match countScansCompleted_end failed arrives n with
  | AllCompleted => true
  | _ => false
  end.

End ExsiGuiScans.

(** * Properties *)

Import exsi.

(** ** Text lemmas *)

Lemma substring_zero_length (n : nat) (s : string) :
  String.substring n 0 s = "".
Proof.
  revert n; induction s as [|a s IH]; intros [|n]; simpl; auto.
Qed.

Lemma prefix_head_mismatch (a b : ascii) (p q s : string) :
  a <> b ->
  String.prefix (String a p) s = true ->
  String.prefix (String b q) s = false.
Proof.
  intros Hab; destruct s as [|x s]; simpl; [discriminate|].
  destruct (ascii_dec a x) as [->|]; [|discriminate].
  intros _; destruct (ascii_dec b x) as [->|]; [congruence|reflexivity].
Qed.

Lemma contains_nonempty (sub : string) (a : ascii) (s : string) :
  Py.contains (String a sub) s = true -> s <> "".
Proof.
  intros H ->; discriminate H.
Qed.

Lemma split_nonempty (sep : ascii) (s : string) : Py.split sep s <> [].
Proof.
  destruct s as [|c s]; simpl; [discriminate|].
  destruct (Ascii.eqb c sep); [discriminate|].
  destruct (Py.split sep s); discriminate.
Qed.

Lemma find_absent (sub s : string) :
  Py.contains sub s = false -> Py.find s sub = (-1)%Z.
Proof.
  unfold Py.contains, Py.find; destruct (Py.find_opt sub s); congruence.
Qed.

(** [msg[8:-2]] is the text from index 8 on, less its last two characters. *)
Lemma slice_8_minus_2 (msg : string) :
  Py.slice msg 8 (-2) = String.substring 8 (String.length msg - 10) msg.
Proof.
  unfold Py.slice, Py.bound, Py.len.
  change (8 <? 0)%Z with false; change (-2 <? 0)%Z with true; cbv iota.
  destruct (Nat.le_gt_cases 10 (String.length msg)) as [H|H].
  - rewrite Z.min_l, Z.max_r by lia.
    replace (Z.to_nat (Z.of_nat (String.length msg) + -2 - 8))
      with (String.length msg - 10)%nat by lia.
    reflexivity.
  - replace (String.length msg - 10)%nat with 0%nat by lia.
    set (n := Z.of_nat (String.length msg)).
    assert (E : Z.to_nat (Z.max 0 (n + -2) - Z.min 8 n) = 0%nat) by lia.
    rewrite E. now rewrite !substring_zero_length.
Qed.

(** ** The readiness classifier *)

Section ClassifierFacts.

Variable prescan_ready : string -> bool.

Lemma is_ready_failure (msg : string) (c : chan) :
  Py.contains "fail" msg = true ->
  is_ready prescan_ready msg c = Returns (false, true) c.
Proof.
  intros H; unfold is_ready; now rewrite H.
Qed.

Lemma is_ready_load_protocol (last msg : string) (c : chan) :
  last_command c = Some last ->
  Py.startswith last "LoadProtocol" = true ->
  Py.contains "fail" msg = false ->
  is_ready prescan_ready msg c
  = Returns (true, Py.contains "LoadProtocol=" msg)
      (set_task_queue
         (task_queue c
            ++ Py.split "," (Py.slice msg (Py.find msg "taskKeys=" + 9) (-2)))
         c).
Proof.
  intros Hlast Hload Hfail; unfold is_ready; rewrite Hfail, Hlast.
  unfold Py.startswith in *.
  rewrite (prefix_head_mismatch "L" "S" _ "can" last)
    by (discriminate || exact Hload).
  rewrite (prefix_head_mismatch "L" "A" _ "ctivateTask" last)
    by (discriminate || exact Hload).
  rewrite (prefix_head_mismatch "L" "S" _ "electTask" last)
    by (discriminate || exact Hload).
  rewrite (prefix_head_mismatch "L" "P" _ "atientTable" last)
    by (discriminate || exact Hload).
  now rewrite Hload.
Qed.

(** C10: after a [LoadProtocol...] command, every message without the
    failure marker makes the classifier push at least one token: the
    comma-separated pieces of the text after ["taskKeys="] less its last
    two characters and, when the message has no ["taskKeys="], the pieces
    of [msg[8:-2]]. *)
Theorem load_protocol_always_pushes (last msg : string) (c : chan) :
  last_command c = Some last ->
  Py.startswith last "LoadProtocol" = true ->
  Py.contains "fail" msg = false ->
  exists tasks c',
    is_ready prescan_ready msg c
    = Returns (true, Py.contains "LoadProtocol=" msg) c'
    /\ task_queue c' = task_queue c ++ tasks
    /\ (1 <= List.length tasks)%nat
    /\ (Py.contains "taskKeys=" msg = false ->
        tasks
        = Py.split ","
            (String.substring 8 (String.length msg - 10) msg)).
Proof.
  intros Hlast Hload Hfail.
  eexists; eexists; split; [now apply (is_ready_load_protocol last)|].
  split; [reflexivity|]. split.
  - pose proof (split_nonempty ","
      (Py.slice msg (Py.find msg "taskKeys=" + 9) (-2))) as Hne.
    destruct (Py.split _ _); [congruence|simpl; lia].
  - intros Habsent. rewrite (find_absent _ _ Habsent).
    change (-1 + 9)%Z with 8%Z. now rewrite slice_8_minus_2.
Qed.

(** C7:for every last command text and every message the classifier
    returns a pair, a function of its inputs alone; the failure marker
    gives [(false, true)], and a last command that matches none of the
    specific prefixes gets the default rule, ready on ["NotifyEvent"],
    with the channel untouched. *)
Theorem is_ready_total (last msg : string) (c : chan) :
  last_command c = Some last ->
  exists ready c',
    is_ready prescan_ready msg c
    = Returns (negb (Py.contains "fail" msg), ready) c'
    /\ (Py.contains "fail" msg = true -> ready = true /\ c' = c)
    /\ (Py.contains "fail" msg = false ->
        forallb (fun p => negb (Py.startswith last p)) specific_rules = true ->
        ready = Py.contains "NotifyEvent" msg /\ c' = c).
Proof.
  intros Hlast; unfold is_ready.
  destruct (Py.contains "fail" msg) eqn:Hfail.
  { exists true, c; repeat split; discriminate. }
  rewrite Hlast; unfold specific_rules; cbn [forallb].
  repeat match goal with
         | |- context [if Py.startswith last ?p then _ else _] =>
             destruct (Py.startswith last p)
         end;
    (eexists; eexists; split; [reflexivity|]; split;
     [discriminate | intros _ Hall; simpl in Hall; try discriminate]).
  now split.
Qed.

(** C2: a message with the failure marker is classified [(false, true)]
    whatever the last command; the receive loop then leaves the command
    queue empty and the readiness event set, and goes on; the command
    processor's pending [wait_for_ready] returns: blocked in the wait it
    is signalled, about to enter the wait it finds the event set, and
    either way its next move clears the event and is back at the loop
    test. *)
Theorem failure_flushes_queue (last data : string) (c : chan) :
  last_command c = Some last ->
  Py.contains "fail" (rcv data) = true ->
  is_ready prescan_ready (rcv data) c = Returns (false, true) c
  /\ exists c',
      receive_iteration prescan_ready (Data data) c = (c', true)
      /\ List.length (command_queue c') = 0%nat
      /\ ready_event c' = true
      /\ wake Waiting c' = Woken
      /\ process_commands Entering c' = (Woken, c', [])
      /\ process_commands Woken c'
         = (Polling, set_ready_event false c', [Resolved]).
Proof.
  intros Hlast Hfail; split; [now apply is_ready_failure|].
  unfold receive_iteration.
  destruct (rcv data) as [|a msg] eqn:Hmsg; [discriminate Hfail|].
  cbn [String.length Nat.eqb].
  unfold receive_try, bind. rewrite (is_ready_failure _ _ Hfail).
  cbn [fst snd write_output modify]. unfold failure_notice.
  cbn [last_command set_output_file]. rewrite Hlast.
  cbn. eexists; split; [reflexivity|]. now repeat split.
Qed.

End ClassifierFacts.

(** ** [send] and the task queue *)

Lemma send_keyless (cmd task : string) (rest : list string) (c : chan) :
  keyless_selection cmd = true ->
  task_queue c = task :: rest ->
  send cmd false c
  = Returns tt
      (set_command_queue (command_queue c ++ [Some (cmd ++ task)%string])
                         (set_task_queue rest c)).
Proof.
  intros Hk Hq; unfold send, bind, get_task; now rewrite Hk, Hq.
Qed.


(** C4: once the classifier has pushed the tokens [k1; k2; k3] of a
    protocol response onto the (empty) task queue, three keyless task
    selections take [k1], then [k2], then [k3], each appended to the command
    text that is put on the command queue. *)
Theorem task_keys_consumed_in_order
        (prescan_ready : string -> bool)
        (last msg k1 k2 k3 cmd1 cmd2 cmd3 : string) (c : chan) :
  last_command c = Some last ->
  Py.startswith last "LoadProtocol" = true ->
  Py.contains "fail" msg = false ->
  task_queue c = [] ->
  Py.split "," (Py.slice msg (Py.find msg "taskKeys=" + 9) (-2))
  = [k1; k2; k3] ->
  keyless_selection cmd1 = true ->
  keyless_selection cmd2 = true ->
  keyless_selection cmd3 = true ->
  exists ready c0 c1 c2 c3,
    is_ready prescan_ready msg c = Returns (true, ready) c0
    /\ task_queue c0 = [k1; k2; k3]
    /\ send cmd1 false c0 = Returns tt c1
    /\ send cmd2 false c1 = Returns tt c2
    /\ send cmd3 false c2 = Returns tt c3
    /\ (task_queue c1 = [k2; k3] /\ task_queue c2 = [k3] /\ task_queue c3 = [])
    /\ command_queue c1 = command_queue c ++ [Some (cmd1 ++ k1)%string]
    /\ command_queue c2
       = command_queue c ++ [Some (cmd1 ++ k1)%string; Some (cmd2 ++ k2)%string]
    /\ command_queue c3
       = command_queue c
           ++ [Some (cmd1 ++ k1)%string; Some (cmd2 ++ k2)%string;
               Some (cmd3 ++ k3)%string].
Proof.
  intros Hlast Hload Hfail Hempty Hsplit H1 H2 H3.
  do 5 eexists.
  split; [exact (is_ready_load_protocol prescan_ready last msg c Hlast Hload Hfail)|].
  rewrite Hsplit, Hempty; cbn [app].
  split; [reflexivity|].
  split; [now apply send_keyless|].
  split; [now apply send_keyless|].
  split; [now apply send_keyless|].
  cbn; rewrite <- !app_assoc; cbn. now repeat split.
Qed.

(** C5, as the code has it: a keyless task selection sent while the task
    queue is empty raises nothing; the caller blocks in [task_queue.get()]
    with the channel as it was: nothing is put on the command queue and no
    key is made up. *)
Theorem keyless_send_on_empty_queue_blocks (cmd : string) (c : chan) :
  keyless_selection cmd = true ->
  task_queue c = [] ->
  send cmd false c = Blocks c.
Proof.
  intros Hk Hq; unfold send, bind, get_task; now rewrite Hk, Hq.
Qed.

(** ** The receive loop after a fatal exception *)


(** ** The dispatch timeout *)

Lemma stop_on_processor_thread (c : chan) :
  stop CommandProcessor c
  = Raises RuntimeError
      (set_joined Receiving
         (set_command_queue (command_queue c ++ [None])
                            (set_running false c))).
Proof. reflexivity. Qed.

Lemma timeout_on_processor_thread (c : chan) :
  process_commands Waiting c
  = (Ended,
     set_joined Receiving
       (set_command_queue (command_queue c ++ [None]) (set_running false c)),
     []).
Proof. reflexivity. Qed.

(** ** The frame *)

Lemma encode_app (a b : string) :
  Py.encode (a ++ b)%string = Py.encode a ++ Py.encode b.
Proof.
  unfold Py.encode; induction a as [|x a IH]; simpl; [reflexivity|].
  now f_equal.
Qed.

Lemma byte_at_div (x k : Z) :
  (0 <= k)%Z -> struct.byte_at x k = ((x / 2 ^ (8 * k)) mod 256)%Z.
Proof.
  intros Hk; unfold struct.byte_at.
  rewrite Z.shiftr_div_pow2 by lia.
  change 255%Z with (Z.ones 8). now rewrite Z.land_ones by lia.
Qed.

Lemma lor_shiftl_byte (a b : Z) :
  (0 <= b < 256)%Z -> Z.lor (Z.shiftl a 8) b = (a * 256 + b)%Z.
Proof.
  intros Hb.
  assert (Hdisj : Z.land (Z.shiftl a 8) b = 0%Z).
  { apply Z.bits_inj'; intros n Hn.
    rewrite Z.land_spec, Z.bits_0.
    destruct (Z.ltb_spec n 8) as [Hlt|Hge].
    - now rewrite Z.shiftl_spec_low.
    - destruct (Z.eq_dec b 0) as [->|Hnz].
      + now rewrite Z.bits_0, andb_false_r.
      + rewrite (Z.bits_above_log2 b n), andb_false_r; try lia.
        assert (Z.log2 b < 8)%Z by (apply Z.log2_lt_pow2; lia). lia. }
  rewrite <- Z.lxor_lor by exact Hdisj.
  rewrite <- Z.add_nocarry_lxor by exact Hdisj.
  now rewrite Z.shiftl_mul_pow2 by lia.
Qed.

(** A 32-bit field reads back as the value packed into it. *)
Lemma pack_I_roundtrip (x : Z) :
  (0 <= x < 2 ^ 32)%Z ->
  exists b3 b2 b1 b0,
    struct.pack_I x = Some [b3; b2; b1; b0]
    /\ Forall (fun b => 0 <= b < 256)%Z [b3; b2; b1; b0]
    /\ struct.unpack_be [b3; b2; b1; b0] 0 = x.
Proof.
  intros Hx; unfold struct.pack_I.
  assert (E : ((0 <=? x) && (x <? 2 ^ 32))%Z = true)
    by (apply andb_true_intro; split; [apply Z.leb_le|apply Z.ltb_lt]; lia).
  rewrite E; do 4 eexists; split; [reflexivity|].
  rewrite !byte_at_div by lia.
  change (2 ^ (8 * 3))%Z with 16777216%Z; change (2 ^ (8 * 2))%Z with 65536%Z.
  change (2 ^ (8 * 1))%Z with 256%Z; change (2 ^ (8 * 0))%Z with 1%Z.
  change (2 ^ 32)%Z with 4294967296%Z in Hx.
  assert (H3 : (0 <= (x / 16777216) mod 256 < 256)%Z)
    by (apply Z.mod_pos_bound; lia).
  assert (H2 : (0 <= (x / 65536) mod 256 < 256)%Z)
    by (apply Z.mod_pos_bound; lia).
  assert (H1 : (0 <= (x / 256) mod 256 < 256)%Z)
    by (apply Z.mod_pos_bound; lia).
  assert (H0 : (0 <= (x / 1) mod 256 < 256)%Z)
    by (apply Z.mod_pos_bound; lia).
  split; [repeat constructor; lia|].
  cbn [struct.unpack_be].
  rewrite !lor_shiftl_byte by assumption.
  clear E H3 H2 H1 H0. Z.div_mod_to_equations. lia.
Qed.

(** C9: [_send_command] writes, in order, the 16-bit fields 16 and 1000, a
    32-bit field that reads back as the payload's byte length, the 32-bit
    fields 0 and 100, all big-endian, then the payload: the tag
    [>heartvista:1:], the counter in decimal, [>], and the command text; the
    counter goes up by one. *)
Theorem frame_layout (cmd : string) (c : chan) :
  (Z.of_nat (List.length (tcmd_of (counter c) cmd)) < 2 ^ 32)%Z ->
  exists length_field payload c',
    _send_command (Some cmd) c = Returns tt c'
    /\ s_out c'
       = s_out c ++ [0; 16]%Z ++ [3; 232]%Z ++ length_field
           ++ [0; 0; 0; 0]%Z ++ [0; 0; 0; 100]%Z ++ payload
    /\ (struct.unpack_be [0; 16]%Z 0 = 16%Z
        /\ struct.unpack_be [3; 232]%Z 0 = 1000%Z
        /\ struct.unpack_be [0; 0; 0; 100]%Z 0 = 100%Z)
    /\ List.length length_field = 4%nat
    /\ Forall (fun b => 0 <= b < 256)%Z length_field
    /\ struct.unpack_be length_field 0 = Z.of_nat (List.length payload)
    /\ payload
       = Py.encode (">heartvista:1:" ++ Py.str (counter c) ++ ">" ++ cmd)%string
    /\ counter c' = (counter c + 1)%nat
    /\ last_command c' = Some cmd.
Proof.
  intros Hlen.
  destruct (pack_I_roundtrip (Z.of_nat (List.length (tcmd_of (counter c) cmd))))
    as (b3 & b2 & b1 & b0 & Hpack & Hbytes & Hback); [lia|].
  exists [b3; b2; b1; b0], (tcmd_of (counter c) cmd); eexists.
  split.
  { unfold _send_command, bind, modify.
    cbn [counter set_ready_event set_last_command].
    rewrite Hpack. cbn. reflexivity. }
  cbn [s_out counter last_command set_s_out set_counter].
  split; [now rewrite <- !app_assoc|].
  split; [now repeat split|].
  split; [reflexivity|].
  split; [assumption|].
  split; [assumption|].
  split; [|now split].
  unfold tcmd_of; now rewrite !encode_app.
Qed.

(** ** The command processor among the other threads *)







Lemma sent_app (t1 t2 : list event) : sent (t1 ++ t2) = sent t1 ++ sent t2.
Proof.
  induction t1 as [|[t| |] t1 IH]; simpl; now rewrite ?IH.
Qed.




Lemma _send_command_queue (cmd : option string) (c : chan) :
  command_queue (after (_send_command cmd c)) = command_queue c.
Proof.
  destruct cmd as [text|]; [|reflexivity].
  cbv [_send_command bind modify s_send_packed raise].
  change (struct.pack_H 16) with (Some [0; 16]%Z).
  change (struct.pack_H 1000) with (Some [3; 232]%Z).
  change (struct.pack_I 0) with (Some [0; 0; 0; 0]%Z).
  change (struct.pack_I 100) with (Some [0; 0; 0; 100]%Z).
  cbv beta iota.
  destruct (struct.pack_I _); reflexivity.
Qed.
















Section Dispatch.

Variable prescan_ready : string -> bool.








End Dispatch.

(** ** Concrete runs *)

(** Closed goals are settled by evaluation, one conjunct at a time. *)
Ltac evaluate :=
  cbv zeta;
  repeat match goal with |- _ /\ _ => split end;
  vm_compute; reflexivity.

Lemma load_protocol_always_pushes_witness :
  exists tasks c',
    is_ready prescan_as_read "NotifyEvent=on"
             (set_last_command (Some "LoadProtocol site") init)
    = Returns (true, Py.contains "LoadProtocol=" "NotifyEvent=on") c'
    /\ task_queue c' = [] ++ tasks
    /\ (1 <= List.length tasks)%nat
    /\ (Py.contains "taskKeys=" "NotifyEvent=on" = false ->
        tasks = Py.split "," (String.substring 8 (14 - 10) "NotifyEvent=on")).
Proof.
  apply (load_protocol_always_pushes prescan_as_read "LoadProtocol site"
           "NotifyEvent=on" (set_last_command (Some "LoadProtocol site") init));
    reflexivity.
Defined.

Lemma is_ready_total_witness :
  exists ready c',
    is_ready prescan_as_read "NotifyEvent all=on"
             (set_last_command (Some "GetExamInfo") init)
    = Returns (negb (Py.contains "fail" "NotifyEvent all=on"), ready) c'
    /\ (Py.contains "fail" "NotifyEvent all=on" = true ->
        ready = true /\ c' = set_last_command (Some "GetExamInfo") init)
    /\ (Py.contains "fail" "NotifyEvent all=on" = false ->
        forallb (fun p => negb (Py.startswith "GetExamInfo" p)) specific_rules
        = true ->
        ready = Py.contains "NotifyEvent" "NotifyEvent all=on"
        /\ c' = set_last_command (Some "GetExamInfo") init).
Proof.
  apply (is_ready_total prescan_as_read "GetExamInfo" "NotifyEvent all=on"
           (set_last_command (Some "GetExamInfo") init)).
  reflexivity.
Defined.

Lemma failure_flushes_queue_witness :
  let c := set_command_queue [Some "Scan"; Some "Help"]
             (set_last_command (Some "Prescan auto") init) in
  is_ready prescan_as_read (rcv "x<Prescan=failed") c = Returns (false, true) c
  /\ exists c',
      receive_iteration prescan_as_read (Data "x<Prescan=failed") c = (c', true)
      /\ List.length (command_queue c') = 0%nat
      /\ ready_event c' = true
      /\ wake Waiting c' = Woken
      /\ process_commands Entering c' = (Woken, c', [])
      /\ process_commands Woken c'
         = (Polling, set_ready_event false c', [Resolved]).
Proof.
  apply (failure_flushes_queue prescan_as_read "Prescan auto"
           "x<Prescan=failed"); reflexivity.
Defined.

Lemma task_keys_consumed_in_order_witness :
  let c := set_last_command (Some "LoadProtocol site") init in
  exists ready c0 c1 c2 c3,
    is_ready prescan_as_read "LoadProtocol=ok taskKeys=11,12,13 ;" c
    = Returns (true, ready) c0
    /\ task_queue c0 = ["11"; "12"; "13"]
    /\ send "SelectTask taskkey=" false c0 = Returns tt c1
    /\ send "SelectTask taskkey=" false c1 = Returns tt c2
    /\ send "SelectTask taskkey=" false c2 = Returns tt c3
    /\ (task_queue c1 = ["12"; "13"] /\ task_queue c2 = ["13"]
        /\ task_queue c3 = [])
    /\ command_queue c1 = [] ++ [Some "SelectTask taskkey=11"]
    /\ command_queue c2
       = [] ++ [Some "SelectTask taskkey=11"; Some "SelectTask taskkey=12"]
    /\ command_queue c3
       = [] ++ [Some "SelectTask taskkey=11"; Some "SelectTask taskkey=12";
               Some "SelectTask taskkey=13"].
Proof.
  apply (task_keys_consumed_in_order prescan_as_read "LoadProtocol site"
           "LoadProtocol=ok taskKeys=11,12,13 ;" "11" "12" "13"
           "SelectTask taskkey=" "SelectTask taskkey=" "SelectTask taskkey="
           (set_last_command (Some "LoadProtocol site") init));
    reflexivity.
Defined.

Lemma keyless_send_on_empty_queue_blocks_witness :
  send "SelectTask taskkey=" false init = Blocks init.
Proof.
  apply (keyless_send_on_empty_queue_blocks "SelectTask taskkey=" init);
    reflexivity.
Defined.

(** C5 as claimed fails: the call raises nothing, it blocks. *)
Lemma keyless_send_on_empty_queue_raises_nothing :
  send "SelectTask taskkey=" false init = Blocks init
  /\ ~ (exists e c', send "SelectTask taskkey=" false init = Raises e c').
Proof.
  split; [reflexivity|]. intros (e & c' & H); discriminate H.
Qed.



Lemma frame_layout_witness :
  exists length_field payload c',
    _send_command (Some "Scan") init = Returns tt c'
    /\ s_out c'
       = s_out init ++ [0; 16]%Z ++ [3; 232]%Z ++ length_field
           ++ [0; 0; 0; 0]%Z ++ [0; 0; 0; 100]%Z ++ payload
    /\ (struct.unpack_be [0; 16]%Z 0 = 16%Z
        /\ struct.unpack_be [3; 232]%Z 0 = 1000%Z
        /\ struct.unpack_be [0; 0; 0; 100]%Z 0 = 100%Z)
    /\ List.length length_field = 4%nat
    /\ Forall (fun b => 0 <= b < 256)%Z length_field
    /\ struct.unpack_be length_field 0 = Z.of_nat (List.length payload)
    /\ payload
       = Py.encode (">heartvista:1:" ++ Py.str (counter init) ++ ">" ++ "Scan")%string
    /\ counter c' = (counter init + 1)%nat
    /\ last_command c' = Some "Scan".
Proof.
  apply (frame_layout "Scan" init); reflexivity.
Defined.

Example frame_of_scan :
  s_out (after (_send_command (Some "Scan") init))
  = [0; 16; 3; 232; 0; 0; 0; 20; 0; 0; 0; 0; 0; 0; 0; 100]%Z
      ++ Py.encode ">heartvista:1:0>Scan".
Proof. reflexivity. Qed.

(** C3, on the code: a command is sent and no message arrives before the
    bound, so [ready_event.wait] returns false. [wait_for_ready] runs [stop]
    on the command processor thread itself: the running flag is cleared, the
    sentinel is queued and the receiving thread is joined; the thread's
    [join] on itself then raises [RuntimeError], so the socket is not closed
    and [TimeoutError] is not raised; the exception ends the worker thread
    and reaches no caller. *)
Theorem dispatch_timeout_on_worker :
  let s := run prescan_as_read
               [CallSend "Scan" false; Process; Process; Process; Process]
               start in
  trace s = [Sent "Scan"]
  /\ cp s = Waiting
  /\ ready_event (ch s) = false
  /\ (exists c',
        wait_for_ready CommandProcessor false (ch s) = Raises RuntimeError c'
        /\ running c' = false
        /\ command_queue c' = [None]
        /\ receiving_thread_joined c' = true
        /\ command_processor_thread_joined c' = false
        /\ s_closed c' = false)
  /\ cp (step prescan_as_read s Process) = Ended.
Proof.
  cbv zeta. split; [vm_compute; reflexivity|].
  split; [vm_compute; reflexivity|].
  split; [vm_compute; reflexivity|].
  split; [|vm_compute; reflexivity].
  exists (after (wait_for_ready CommandProcessor false
                   (ch (run prescan_as_read
                            [CallSend "Scan" false; Process; Process; Process;
                             Process]
                            start)))).
  evaluate.
Qed.

(** Two queued commands on a channel that answers the first: the second is
    sent after the event was raised for the first and its wait returned. *)
Example two_commands_in_turn :
  let s := run prescan_as_read
               [CallSend "Scan" false; CallSend "Help" false;
                Process; Process; Process; Process;
                Receive (Data "<acquisition=complete");
                Process; Process; Process; Process]
               start in
  trace s = [Sent "Scan"; Signalled; Resolved; Sent "Help"]
  /\ cp s = Entering
  /\ enqueued s = ["Scan"; "Help"]
  /\ discarded s = []
  /\ command_queue (ch s) = [].
Proof. evaluate. Qed.

(** The sentinel that [stop] puts on the queue, taken by a command
    processor that was inside [get], is handed to [_send_command], whose
    exception ends the thread. *)
Example sentinel_ends_worker :
  let s := run prescan_as_read [Process; CallStop; Process] start in
  cp s = Sending None
  /\ _send_command None (ch s)
     = Raises AttributeError (set_last_command None (ch s))
  /\ cp (step prescan_as_read s Process) = Ended
  /\ trace (step prescan_as_read s Process) = [].
Proof. evaluate. Qed.

(** The same [stop] run by a caller goes through: both threads joined, the
    socket closed. *)
Example stop_by_caller :
  exists c', stop Caller init = Returns tt c'
             /\ running c' = false
             /\ receiving_thread_joined c' = true
             /\ command_processor_thread_joined c' = true
             /\ s_closed c' = true.
Proof.
  exists (after (stop Caller init)); evaluate.
Qed.

(** ** The all-slice sweep *)

(** Fifty solved slices, 5 to 54: 48 runs of two scans, on slices 6 to 53. *)
Example sweep_5_to_54 :
  let currents := repeat None 5 ++ repeat (Some tt) 50 in
  ExsiGui.doAllShimmedScans unit true currents = ExsiGui.Started 6 48
  /\ ExsiGui.swept unit true currents (fun _ => true) = seq 6 48
  /\ ExsiGui.inner_solved unit currents = seq 6 48
  /\ ExsiGui.queueAll 6 48 = repeat 2%nat 48.
Proof. evaluate. Qed.

(** C8, on the code: with an unsolved slice between solved ones the sweep
    takes the slices that follow the first solved one by position. For
    [currents = [v; None; v; v]] it starts at slice 1 for one run, and the
    worker ends with [TypeError] on the [None] of slice 1 before any
    verification; the solved slices less the first and the last are [[2]]. *)
Theorem sweep_with_unsolved_gap :
  let currents := [Some tt; None; Some tt; Some tt] in
  ExsiGui.doAllShimmedScans unit true currents = ExsiGui.Started 1 1
  /\ ExsiGui.waitdoAllShimmedScans unit currents (fun _ => true) 1 1
     = ([], Some ExsiGui.TypeError)
  /\ ExsiGui.swept unit true currents (fun _ => true) = []
  /\ ExsiGui.inner_solved unit currents = [2%nat]
  /\ ExsiGui.doAllShimmedScans unit true [None; None] = ExsiGui.Raised ExsiGui.TypeError.
Proof. evaluate. Qed.


(** * Further properties of the channel *)

(** ** Text: [rcv] and the keyless selection test *)

Lemma substring_0_all (s : string) : String.substring 0 (String.length s) s = s.
Proof. induction s as [|a s IH]; simpl; [reflexivity|now rewrite IH]. Qed.

Lemma substring_skip_app (a s : string) (k m : nat) :
  String.substring (String.length a + k) m (a ++ s)%string
  = String.substring k m s.
Proof. induction a as [|x a IH]; simpl; auto. Qed.

Lemma length_append (a b : string) :
  String.length (a ++ b)%string = (String.length a + String.length b)%nat.
Proof. induction a as [|x a IH]; simpl; auto. Qed.

(** [(a + s)[len(a):]] is [s]. *)
Lemma slice_from_app (a s : string) :
  Py.slice_from (a ++ s)%string (Py.len a) = s.
Proof.
  unfold Py.slice_from, Py.slice, Py.bound, Py.len.
  rewrite length_append.
  destruct (Z.ltb_spec (Z.of_nat (String.length a)) 0) as [H|_]; [lia|].
  destruct (Z.ltb_spec
              (Z.of_nat (String.length a + String.length s)) 0) as [H|_];
    [lia|].
  rewrite Z.min_l, Z.min_id by lia.
  rewrite Nat2Z.id.
  replace (Z.to_nat _) with (String.length s) by lia.
  rewrite <- (Nat.add_0_r (String.length a)) at 1.
  rewrite substring_skip_app. apply substring_0_all.
Qed.

Lemma prefix_app (p s : string) : String.prefix p (p ++ s)%string = true.
Proof.
  induction p as [|x p IH]; simpl; [now destruct s|].
  destruct (ascii_dec x x); [exact IH|congruence].
Qed.

Lemma prefix_split (p s : string) :
  String.prefix p s = true -> exists rest, s = (p ++ rest)%string.
Proof.
  revert s; induction p as [|x p IH]; intros s H.
  - now exists s.
  - destruct s as [|y s]; simpl in *; [discriminate|].
    destruct (ascii_dec x y) as [->|]; [|discriminate].
    destruct (IH s H) as [rest ->]. now exists rest.
Qed.

Lemma prefix_empty (s : string) : String.prefix "" s = true.
Proof. now destruct s. Qed.

Lemma find_opt_char_split (ch : ascii) (s : string) (i : nat) :
  Py.find_opt (String ch "") s = Some i ->
  exists before rest,
    s = (before ++ String ch rest)%string
    /\ String.length before = i
    /\ Py.find_opt (String ch "") before = None.
Proof.
  revert i; induction s as [|x s IH]; intros i H; [discriminate H|].
  cbn [Py.find_opt] in H.
  assert (P : String.prefix (String ch "") (String x s)
              = if ascii_dec ch x then true else false).
  { simpl; destruct (ascii_dec ch x); [apply prefix_empty|reflexivity]. }
  rewrite P in H. destruct (ascii_dec ch x) as [->|Hne].
  - injection H as <-. exists "", s. now repeat split.
  - destruct (Py.find_opt (String ch "") s) as [j|]; [|discriminate H].
    injection H as <-.
    destruct (IH j eq_refl) as (before & rest & -> & <- & Hb).
    exists (String x before), rest.
    split; [reflexivity|]. split; [reflexivity|].
    cbn [Py.find_opt]. rewrite Hb.
    simpl. destruct (ascii_dec ch x); [contradiction|reflexivity].
Qed.

Lemma append_cons_assoc (a : string) (x : ascii) (b : string) :
  (a ++ String x b)%string = ((a ++ String x "") ++ b)%string.
Proof. induction a as [|y a IH]; simpl; [reflexivity|now rewrite IH]. Qed.

(** X1: [rcv] keeps the text that follows the first ['<'] of the data, and
    the whole data when there is no ['<']. *)
Theorem rcv_after_first_delimiter (data : string) :
  (Py.contains "<" data = false -> rcv data = data)
  /\ (Py.contains "<" data = true ->
      exists before,
        data = (before ++ "<" ++ rcv data)%string
        /\ Py.contains "<" before = false).
Proof.
  unfold Py.contains.
  destruct (Py.find_opt "<" data) as [i|] eqn:E.
  - split; [discriminate|]. intros _.
    destruct (find_opt_char_split _ _ _ E) as (before & rest & Hd & Hi & Hb).
    exists before. rewrite Hb. split; [|reflexivity].
    assert (Hr : rcv data = rest).
    { unfold rcv, Py.find. rewrite E, Hd, append_cons_assoc.
      replace (Z.of_nat i + 1)%Z with (Py.len (before ++ "<")%string)
        by (unfold Py.len; rewrite length_append; simpl; lia).
      apply slice_from_app. }
    now rewrite Hr.
  - split; [|discriminate]. intros _.
    unfold rcv, Py.find; rewrite E. exact (slice_from_app "" data).
Qed.

Lemma keyless_selection_cons (x : ascii) (rest : string) :
  keyless_selection (String x rest)
  = (String.prefix select_literal (String x rest)
     && Py.no_digit_ahead
          (Py.slice_from (String x rest) (Py.len select_literal)))
    || keyless_selection rest.
Proof. reflexivity. Qed.

(** X2: the keyless test of [send] holds exactly of the commands in which
    some occurrence of ["SelectTask taskkey="] is followed by the end of the
    text or by a character that is not a digit. *)
Theorem keyless_selection_spec (cmd : string) :
  keyless_selection cmd = true
  <-> exists before rest,
        cmd = (before ++ select_literal ++ rest)%string
        /\ Py.no_digit_ahead rest = true.
Proof.
  split.
  - induction cmd as [|x cmd IH].
    + simpl; discriminate.
    + rewrite keyless_selection_cons. intros H.
      apply orb_true_iff in H; destruct H as [H|H].
      * apply andb_true_iff in H; destruct H as [Hp Hd].
        destruct (prefix_split _ _ Hp) as [rest Hrest].
        rewrite Hrest, slice_from_app in Hd.
        exists "", rest; now split.
      * destruct (IH H) as (before & rest & -> & Hd).
        exists (String x before), rest; now split.
  - intros (before & rest & -> & Hd).
    induction before as [|x before IH].
    + change ("" ++ select_literal ++ rest)%string
        with (select_literal ++ rest)%string.
      destruct (select_literal ++ rest)%string as [|y s] eqn:E;
        [discriminate E|].
      rewrite keyless_selection_cons, <- E.
      now rewrite prefix_app, slice_from_app, Hd.
    + change (String x before ++ select_literal ++ rest)%string
        with (String x (before ++ select_literal ++ rest)).
      rewrite keyless_selection_cons, IH. apply orb_true_r.
Qed.

(** ** [send] and [_send_command] on the rest of the channel *)

Lemma _send_command_frame (cmd : option string) (c : chan) :
  let c' := after (_send_command cmd c) in
  running c' = running c
  /\ task_queue c' = task_queue c
  /\ output_file c' = output_file c
  /\ s_closed c' = s_closed c
  /\ ready_event c' = false
  /\ last_command c' = cmd
  /\ counter c'
     = match cmd with Some _ => S (counter c) | None => counter c end.
Proof.
  destruct cmd as [text|]; [|now repeat split].
  cbv [_send_command bind modify s_send_packed raise].
  change (struct.pack_H 16) with (Some [0; 16]%Z).
  change (struct.pack_H 1000) with (Some [3; 232]%Z).
  change (struct.pack_I 0) with (Some [0; 0; 0; 0]%Z).
  change (struct.pack_I 100) with (Some [0; 0; 0; 100]%Z).
  cbv beta iota zeta.
  destruct (struct.pack_I _); cbn; rewrite Nat.add_1_r; now repeat split.
Qed.

Lemma queued_send_effect (cmd : string) (c : chan) :
  let c' := after (send cmd false c) in
  (s_out c' = s_out c /\ counter c' = counter c
   /\ ready_event c' = ready_event c /\ last_command c' = last_command c
   /\ running c' = running c)
  /\ (send cmd false c = Blocks c
      \/ (send cmd false c = Returns tt c'
          /\ ((keyless_selection cmd = false
               /\ command_queue c' = command_queue c ++ [Some cmd]
               /\ task_queue c' = task_queue c)
              \/ (exists key,
                    keyless_selection cmd = true
                    /\ task_queue c = key :: task_queue c'
                    /\ command_queue c'
                       = command_queue c ++ [Some (cmd ++ key)%string])))).
Proof.
  unfold send. destruct (keyless_selection cmd) eqn:Hk.
  - unfold bind, get_task. destruct (task_queue c) as [|key rest] eqn:Hq.
    + split; [now repeat split|now left].
    + split; [now repeat split|]. right. split; [reflexivity|].
      right. exists key. now repeat split.
  - split; [now repeat split|]. right. split; [reflexivity|].
    left. now repeat split.
Qed.

(** X3: a queued [send] only queues. It writes nothing to the socket and
    leaves the counter, the readiness event, [last_command] and the running
    flag alone; unless it blocks, it appends exactly one item to the command
    queue: the command as given, or, for a keyless selection, the command
    followed by the oldest task key, which leaves the task queue. *)
Theorem queued_send_only_queues (cmd : string) (c : chan) :
  let c' := after (send cmd false c) in
  (s_out c' = s_out c /\ counter c' = counter c
   /\ ready_event c' = ready_event c /\ last_command c' = last_command c
   /\ running c' = running c)
  /\ (send cmd false c = Blocks c
      \/ (send cmd false c = Returns tt c'
          /\ ((keyless_selection cmd = false
               /\ command_queue c' = command_queue c ++ [Some cmd]
               /\ task_queue c' = task_queue c)
              \/ (exists key,
                    keyless_selection cmd = true
                    /\ task_queue c = key :: task_queue c'
                    /\ command_queue c'
                       = command_queue c ++ [Some (cmd ++ key)%string])))).
Proof. apply queued_send_effect. Qed.

(** ** The rules of the classifier *)

Lemma prefix_both (p q s : string) :
  String.prefix p s = true -> String.prefix q s = true ->
  String.prefix p q = true \/ String.prefix q p = true.
Proof.
  revert p q; induction s as [|x s IH]; intros p q Hp Hq;
    (destruct p as [|a p]; [left; apply prefix_empty|]);
    (destruct q as [|b q]; [right; apply prefix_empty|]).
  - discriminate Hp.
  - simpl in Hp, Hq |- *.
    destruct (ascii_dec a x) as [->|]; [|discriminate].
    destruct (ascii_dec b x) as [->|]; [|discriminate].
    destruct (ascii_dec x x); [now apply IH|congruence].
Qed.

Lemma prefix_exclusive (p q s : string) :
  String.prefix p s = true ->
  String.prefix p q = false -> String.prefix q p = false ->
  String.prefix q s = false.
Proof.
  intros Hp Hpq Hqp. destruct (String.prefix q s) eqn:Hq; [|reflexivity].
  destruct (prefix_both p q s Hp Hq); congruence.
Qed.

Section ClassifierRules.

Variable prescan_ready : string -> bool.

(** X4: each marker rule of the classifier applies whenever the last command
    starts with its prefix, whatever the order the rules are tried in: with
    no failure marker the answer is success, ready exactly when the message
    holds the rule's marker (always, for the two [SetGrx] rules), and the
    channel is untouched. *)
Theorem plain_rule_applies
        (p : string) (marker : option string) (last msg : string) (c : chan) :
  In (p, marker) plain_rules ->
  last_command c = Some last ->
  Py.startswith last p = true ->
  Py.contains "fail" msg = false ->
  is_ready prescan_ready msg c = Returns (true, rule_ready marker msg) c.
Proof.
  intros Hin Hlast Hp Hfail. unfold is_ready; rewrite Hfail, Hlast.
  unfold Py.startswith in *.
  simpl in Hin.
  repeat (destruct Hin as [E|Hin];
          [injection E as <- <-;
           repeat match goal with
                  | |- context [String.prefix ?q last] =>
                      first [ rewrite Hp
                            | rewrite (prefix_exclusive _ q last Hp
                                         eq_refl eq_refl) ];
                      cbv iota
                  end;
           reflexivity|]).
  contradiction.
Qed.

Lemma is_ready_pushes (msg : string) (c : chan) :
  exists pushed,
    after (is_ready prescan_ready msg c)
    = set_task_queue (task_queue c ++ pushed) c
    /\ (pushed <> [] ->
        Py.contains "fail" msg = false
        /\ exists last, last_command c = Some last
                        /\ Py.startswith last "LoadProtocol" = true).
Proof.
  assert (Hsame : c = set_task_queue (task_queue c ++ []) c)
    by (destruct c; unfold set_task_queue; simpl; now rewrite app_nil_r).
  unfold is_ready, ret.
  destruct (Py.contains "fail" msg); [exists []; now split|].
  destruct (last_command c) as [last|] eqn:Hlast; [|exists []; now split].
  repeat match goal with
         | |- context [if Py.startswith last ?p then _ else _] =>
             destruct (Py.startswith last p) eqn:?
         end;
    try (exists []; now split).
  eexists; split; [reflexivity|]. intros _; split; [reflexivity|].
  now exists last.
Qed.

(** X5: the classifier changes nothing of the channel but the task queue,
    and only appends to it; it appends something only when the message has
    no failure marker and the last command starts with ["LoadProtocol"]. *)
Theorem is_ready_only_pushes_task_keys (msg : string) (c : chan) :
  exists pushed,
    after (is_ready prescan_ready msg c)
    = set_task_queue (task_queue c ++ pushed) c
    /\ (pushed <> [] ->
        Py.contains "fail" msg = false
        /\ exists last, last_command c = Some last
                        /\ Py.startswith last "LoadProtocol" = true).
Proof. apply is_ready_pushes. Qed.

End ClassifierRules.

Lemma plain_rule_applies_witness :
  is_ready prescan_as_read "Scan acquisition=complete"
           (set_last_command (Some "Scan") init)
  = Returns (true, rule_ready (Some "acquisition=complete")
                              "Scan acquisition=complete")
            (set_last_command (Some "Scan") init).
Proof.
  apply (plain_rule_applies prescan_as_read "Scan"
           (Some "acquisition=complete") "Scan"); try reflexivity.
  simpl; auto.
Defined.

(** ** The receive loop on the rest of the channel *)

Section ReceiveFacts.

Variable prescan_ready : string -> bool.

Lemma receive_iteration_frame (r : received) (c : chan) :
  let c' := fst (receive_iteration prescan_ready r c) in
  running c' = running c /\ counter c' = counter c
  /\ last_command c' = last_command c /\ s_out c' = s_out c
  /\ s_closed c' = s_closed c.
Proof.
  destruct r as [data| |text]; simpl; [|now repeat split|now repeat split].
  destruct (String.length (rcv data) =? 0)%nat; simpl; [now repeat split|].
  unfold receive_try, bind.
  destruct (is_ready_pushes prescan_ready (rcv data) c) as (pushed & Hc & _).
  destruct (is_ready prescan_ready (rcv data) c) as [[success ready] c1|e c1|c1];
    simpl in Hc; subst c1; cbn [fst snd];
    [| simpl; now repeat split | simpl; now repeat split].
  destruct success; unfold failure_notice; cbn [write_output modify ret].
  - destruct ready; simpl; now repeat split.
  - cbn [last_command set_output_file set_task_queue].
    destruct (last_command c) eqn:Hl; [|simpl; now repeat split].
    destruct ready; simpl; now repeat split.
Qed.

(** X6: a failure message flushes the command queue only. The task queue,
    the counter, [last_command] and the running flag are as before, and the
    output file gains three lines: the message received, the notice naming
    the failed command, and the note that the queue was cleared. *)
Theorem failure_keeps_task_queue (last data : string) (c : chan) :
  last_command c = Some last ->
  Py.contains "fail" (rcv data) = true ->
  let c' := fst (receive_iteration prescan_ready (Data data) c) in
  task_queue c' = task_queue c
  /\ counter c' = counter c
  /\ last_command c' = Some last
  /\ running c' = running c
  /\ output_file c'
     = output_file c
         ++ [("Received: " ++ rcv data ++ "
")%string;
             ("Command Failed: " ++ last ++ "
Clearing Command Queue

")%string;
             "Command queue cleared due to failure.
"].
Proof.
  intros Hlast Hfail. unfold receive_iteration.
  destruct (rcv data) as [|a msg] eqn:Hmsg; [discriminate Hfail|].
  cbn [String.length Nat.eqb].
  unfold receive_try, bind. rewrite (is_ready_failure _ _ _ Hfail).
  cbn [fst snd write_output modify]. unfold failure_notice.
  cbn [last_command set_output_file]. rewrite Hlast.
  cbn. rewrite <- !app_assoc. now repeat split.
Qed.

(** X7: when [last_command] is [None] (the sentinel of [stop] was handed to
    [_send_command]), every non-empty message ends the receive loop on a
    caught exception, with or without the failure marker: the command queue
    is not flushed and the readiness event is not set. *)
Theorem receive_after_sentinel_ends_loop (data : string) (c : chan) :
  last_command c = None ->
  rcv data <> "" ->
  exists c',
    receive_iteration prescan_ready (Data data) c = (c', false)
    /\ command_queue c' = command_queue c
    /\ ready_event c' = ready_event c
    /\ task_queue c' = task_queue c.
Proof.
  intros Hlast Hmsg. unfold receive_iteration.
  destruct (rcv data) as [|a msg] eqn:E; [congruence|].
  cbn [String.length Nat.eqb]. unfold receive_try, bind, is_ready, ret.
  destruct (Py.contains "fail" (String a msg)).
  - cbn [fst snd write_output modify]. unfold failure_notice.
    cbn [last_command set_output_file]. rewrite Hlast.
    eexists; split; [reflexivity|]. now repeat split.
  - rewrite Hlast. eexists; split; [reflexivity|]. now repeat split.
Qed.

(** X9: socket timeouts and empty messages leave the channel exactly as it
    was, however many the receive loop goes through. *)
Theorem receive_loop_quiet (rs : list received) (c : chan) :
  Forall quiet rs -> receive_loop prescan_ready rs c = c.
Proof.
  induction 1 as [|r rs Hr _ IH]; simpl; [reflexivity|].
  destruct (running c); [|reflexivity].
  destruct Hr as [->|(data & -> & E)]; simpl; [exact IH|].
  rewrite E; simpl. exact IH.
Qed.

End ReceiveFacts.

(** ** Stopping *)

(** X11: whatever thread runs [stop], the running flag is cleared and one
    sentinel is queued. Only a thread other than the two workers gets to the
    end, with both workers joined and the socket closed; run by the
    receiving thread [stop] raises at the first [join], run by the command
    processor thread at the second, and the socket is left as it was. *)
Theorem stop_by_thread (me : thread) (c : chan) :
  let c' := after (stop me c) in
  running c' = false
  /\ command_queue c' = command_queue c ++ [None]
  /\ match me with
     | Caller =>
         stop me c = Returns tt c'
         /\ receiving_thread_joined c' = true
         /\ command_processor_thread_joined c' = true
         /\ s_closed c' = true
     | Receiving =>
         stop me c = Raises RuntimeError c'
         /\ receiving_thread_joined c' = receiving_thread_joined c
         /\ command_processor_thread_joined c'
            = command_processor_thread_joined c
         /\ s_closed c' = s_closed c
     | CommandProcessor =>
         stop me c = Raises RuntimeError c'
         /\ receiving_thread_joined c' = true
         /\ command_processor_thread_joined c'
            = command_processor_thread_joined c
         /\ s_closed c' = s_closed c
     end.
Proof. destruct me; now repeat split. Qed.

Lemma send_running (cmd : string) (immediate : bool) (c : chan) :
  running (after (send cmd immediate c)) = running c.
Proof.
  destruct immediate.
  - apply (_send_command_frame (Some cmd) c).
  - apply (queued_send_effect cmd c).
Qed.

Lemma process_commands_stopped (p p' : pc) (c c' : chan) (evs : list event) :
  running c = false ->
  process_commands p c = (p', c', evs) ->
  running c' = false
  /\ (List.length (sent evs) + may_send p' <= may_send p)%nat.
Proof.
  intros Hr.
  destruct p as [| |cmd| | | |];
    try rewrite timeout_on_processor_thread; try unfold process_commands.
  - rewrite Hr; intros [= <- <- <-]; now split.
  - destruct (command_queue c) as [|item rest];
      intros [= <- <- <-]; split; simpl; auto.
  - destruct (_send_command_frame cmd c) as (Hrun & _).
    destruct (_send_command cmd c) as [[] c1|e c1|c1];
      cbn [after] in Hrun; intros [= <- <- <-];
      (split; [now rewrite Hrun|]); destruct cmd; simpl; auto.
  - destruct (ready_event c); intros [= <- <- <-]; split; simpl; auto.
  - intros [= <- <- <-]; split; simpl; auto.
  - cbn [wait_for_ready modify]; intros [= <- <- <-]; split; simpl; auto.
  - intros [= <- <- <-]; split; simpl; auto.
Qed.

Lemma may_send_wake (p : pc) (c : chan) : may_send (wake p c) = may_send p.
Proof. destruct p; simpl; try reflexivity. now destruct (ready_event c). Qed.

Section Stopped.

Variable prescan_ready : string -> bool.

Lemma step_stopped (s : sys) (m : move) :
  running (ch s) = false ->
  let s' := step prescan_ready s m in
  running (ch s') = false
  /\ exists more,
      sent (trace s') = sent (trace s) ++ more
      /\ (List.length more + may_send (cp s') <= may_send (cp s))%nat.
Proof.
  intros Hr; destruct m as [cmd imm|r| |]; unfold step; cbv zeta.
  - cbn [ch cp trace]; rewrite send_running.
    split; [exact Hr|]. exists []; rewrite app_nil_r; simpl; auto.
  - destruct (receiving s);
      [|split; [exact Hr|]; exists []; rewrite app_nil_r; simpl; auto].
    rewrite Hr; cbn [ch cp trace].
    split; [exact Hr|]. exists []; rewrite app_nil_r; simpl; auto.
  - destruct (process_commands (cp s) (ch s)) as [[p' c'] evs] eqn:E.
    destruct (process_commands_stopped _ _ _ _ _ Hr E) as [Hr' He].
    cbn [ch cp trace]; rewrite sent_app.
    split; [exact Hr'|]. now exists (sent evs).
  - cbn [ch cp trace]. split; [reflexivity|].
    exists []; rewrite app_nil_r; simpl; auto.
Qed.

(** X8: once the running flag is cleared it stays cleared, and the command
    processor sends at most one further command, whatever is queued and
    whatever the threads do next: none when it stands at the loop test or
    in the wait, one at most when it is inside [get] or has taken a command
    off the queue. *)
Theorem one_send_at_most_once_stopped (ms : list move) (s : sys) :
  running (ch s) = false ->
  let s' := run prescan_ready ms s in
  running (ch s') = false
  /\ exists more,
      sent (trace s') = sent (trace s) ++ more
      /\ (List.length more <= may_send (cp s))%nat
      /\ (List.length more <= 1)%nat.
Proof.
  unfold run; revert s; induction ms as [|m ms IH]; intros s Hr; cbn [fold_left].
  - split; [exact Hr|]. exists []; rewrite app_nil_r.
    simpl; repeat split; lia.
  - destruct (step_stopped s m Hr) as (Hr' & more1 & Hs1 & Hl1).
    destruct (IH _ Hr') as (Hr'' & more2 & Hs2 & Hl2 & _).
    split; [exact Hr''|]. exists (more1 ++ more2).
    rewrite Hs2, Hs1, <- app_assoc, length_app.
    split; [reflexivity|].
    assert (may_send (cp s) <= 1)%nat by (destruct (cp s); simpl; lia).
    split; lia.
Qed.

End Stopped.

(** ** Frames in sequence *)

(** X10: commands handed to [_send_command] one after the other are written
    as whole frames end to end, numbered with consecutive counter values
    from the counter's value at the start; the counter ends advanced by the
    number of commands. *)
Theorem frames_in_sequence (cmds : list string) (bytes : list Z) (c : chan) :
  frames (counter c) cmds = Some bytes ->
  exists c',
    send_each cmds c = Returns tt c'
    /\ s_out c' = s_out c ++ bytes
    /\ counter c' = (counter c + List.length cmds)%nat.
Proof.
  revert bytes c; induction cmds as [|cmd cmds IH]; intros bytes c H.
  - injection H as <-. exists c. simpl.
    rewrite app_nil_r, Nat.add_0_r. now repeat split.
  - cbn [frames] in H.
    destruct (struct.pack_I _) as [field|] eqn:Hpack; [|discriminate H].
    destruct (frames (S (counter c)) cmds) as [more|] eqn:Hmore;
      [|discriminate H].
    injection H as <-.
    assert (Hsend : exists c1,
               _send_command (Some cmd) c = Returns tt c1
               /\ counter c1 = S (counter c)
               /\ s_out c1
                  = s_out c ++ [0; 16; 3; 232]%Z ++ field
                      ++ [0; 0; 0; 0; 0; 0; 0; 100]%Z
                      ++ tcmd_of (counter c) cmd).
    { unfold _send_command, bind, modify.
      cbn [counter set_ready_event set_last_command].
      rewrite Hpack. cbn. eexists; split; [reflexivity|].
      rewrite Nat.add_1_r. split; [reflexivity|].
      cbn [s_out set_s_out]. rewrite <- !app_assoc. reflexivity. }
    destruct Hsend as (c1 & Hs1 & Hc1 & Ho1).
    rewrite <- Hc1 in Hmore.
    destruct (IH _ _ Hmore) as (c' & Hs' & Ho' & Hc').
    exists c'. cbn [send_each]; unfold bind at 1; rewrite Hs1.
    split; [exact Hs'|]. split.
    + rewrite Ho', Ho1. unfold tcmd_of. repeat rewrite <- app_assoc.
      reflexivity.
    + rewrite Hc', Hc1; simpl; lia.
Qed.

(** * Further properties of the sweep *)

Section SweepFacts.

Variable vector : Type.

Local Abbreviation count_solved := (ExsiGui.count_solved vector).
Local Abbreviation solved_from := (ExsiGui.solved_from vector).
Local Abbreviation visit := (ExsiGui.visit vector).

Lemma count_solved_spec (currents : list (option vector)) (i : nat)
      (startindex : option nat) (numindexes : Z) :
  count_solved currents i startindex numindexes
  = (match startindex with
     | Some first => Some first
     | None => hd_error (solved_from currents i)
     end,
     (numindexes + Z.of_nat (List.length (solved_from currents i)))%Z).
Proof.
  revert i startindex numindexes.
  induction currents as [|[v|] currents IH]; intros i startindex numindexes;
    simpl.
  - destruct startindex; f_equal; lia.
  - rewrite IH. destruct startindex; simpl; f_equal; lia.
  - rewrite IH. destruct startindex; simpl; f_equal; lia.
Qed.

Lemma solved_from_skip (a i : nat) (rest : list (option vector)) :
  solved_from (repeat None a ++ rest) i = solved_from rest (i + a).
Proof.
  revert i; induction a as [|a IH]; intros i; simpl.
  - now rewrite Nat.add_0_r.
  - rewrite IH. f_equal; lia.
Qed.

Lemma solved_from_block (vs : list vector) (b i : nat) :
  solved_from (map Some vs ++ repeat None b) i = seq i (List.length vs).
Proof.
  revert i; induction vs as [|v vs IH]; intros i; simpl.
  - induction b as [|b IHb] in i |- *; simpl; auto.
  - now rewrite IH.
Qed.

Lemma removelast_tl_seq (a n : nat) :
  removelast (tl (seq a n)) = seq (S a) (n - 2).
Proof.
  destruct n as [|n]; [reflexivity|]. simpl.
  replace (n - 1)%nat with (pred n) by lia.
  generalize (S a); clear a. induction n as [|n IH]; intros a; [reflexivity|].
  destruct n as [|n]; [reflexivity|].
  change (seq a (S (S n))) with (a :: seq (S a) (S n)).
  change (removelast (a :: seq (S a) (S n)))
    with (a :: removelast (seq (S a) (S n))).
  rewrite IH. reflexivity.
Qed.

Lemma visit_solved (currents : list (option vector)) (scanned : nat -> bool)
      (idxs : list nat) :
  Forall (fun idx => exists v, nth_error currents idx = Some (Some v)) idxs ->
  visit currents scanned idxs
  = (map (fun idx => ExsiGui.Run idx 2 (scanned idx)) idxs, None).
Proof.
  induction 1 as [|idx idxs (v & Hv) _ IH]; simpl; [reflexivity|].
  now rewrite Hv, IH.
Qed.

Lemma nth_error_block (a b : nat) (vs : list vector) (idx : nat) :
  (a <= idx < a + List.length vs)%nat ->
  exists v,
    nth_error (repeat None a ++ map Some vs ++ repeat None b) idx
    = Some (Some v).
Proof.
  intros H.
  rewrite nth_error_app2 by (rewrite repeat_length; lia).
  rewrite repeat_length.
  rewrite nth_error_app1 by (rewrite length_map; lia).
  rewrite nth_error_map.
  destruct (nth_error vs (idx - a)) as [v|] eqn:E; [now exists v|].
  apply nth_error_None in E; lia.
Qed.

(** X13: when the solved slices are one unbroken run (slices [a] to
    [a + n - 1], [n >= 1]), the sweep raises nothing and runs one two-scan
    verification on each of the slices [a + 1] to [a + n - 2], which are the
    solved slices less the first and the last; as many basis pairs are
    queued as runs are made. *)
Theorem sweep_of_unbroken_run (a b : nat) (vs : list vector)
        (scanned : nat -> bool) :
  vs <> [] ->
  let currents := repeat None a ++ map Some vs ++ repeat None b in
  let n := List.length vs in
  ExsiGui.doAllShimmedScans vector true currents
  = ExsiGui.Started (a + 1) (Z.of_nat n - 2)
  /\ ExsiGui.waitdoAllShimmedScans vector currents scanned
       (a + 1) (Z.of_nat n - 2)
     = (map (fun idx => ExsiGui.Run idx 2 (scanned idx))
            (seq (a + 1) (n - 2)), None)
  /\ ExsiGui.swept vector true currents scanned = seq (a + 1) (n - 2)
  /\ ExsiGui.inner_solved vector currents = seq (a + 1) (n - 2)
  /\ List.length (ExsiGui.queueAll (a + 1) (Z.of_nat n - 2)) = (n - 2)%nat.
Proof.
  intros Hvs currents n.
  assert (Hsolved : solved_from currents 0 = seq a n).
  { unfold currents. now rewrite solved_from_skip, solved_from_block. }
  assert (Hn : (1 <= n)%nat).
  { unfold n; destruct vs; [congruence|simpl; lia]. }
  assert (Hstart : ExsiGui.doAllShimmedScans vector true currents
                   = ExsiGui.Started (a + 1) (Z.of_nat n - 2)).
  { unfold ExsiGui.doAllShimmedScans.
    rewrite count_solved_spec, Hsolved, length_seq.
    destruct n as [|n']; [lia|]. reflexivity. }
  assert (Hrange : ExsiGui.range (a + 1) (Z.of_nat n - 2)
                   = seq (a + 1) (n - 2)).
  { unfold ExsiGui.range. f_equal. lia. }
  assert (Hvisit : ExsiGui.waitdoAllShimmedScans vector currents scanned
                     (a + 1) (Z.of_nat n - 2)
                   = (map (fun idx => ExsiGui.Run idx 2 (scanned idx))
                          (seq (a + 1) (n - 2)), None)).
  { unfold ExsiGui.waitdoAllShimmedScans. rewrite Hrange.
    apply visit_solved. apply Forall_forall. intros idx Hin.
    apply in_seq in Hin. apply nth_error_block. lia. }
  split; [exact Hstart|]. split; [exact Hvisit|]. split; [|split].
  - unfold ExsiGui.swept. rewrite Hstart, Hvisit. cbn [fst].
    rewrite map_map. cbn [ExsiGui.slice]. apply map_id.
  - unfold ExsiGui.inner_solved. rewrite Hsolved, removelast_tl_seq.
    f_equal; lia.
  - unfold ExsiGui.queueAll. now rewrite length_map, Hrange, length_seq.
Qed.

(** X14: with at most two solved slices the sweep runs no verification, and
    the solved slices less the first and the last are none either; with no
    solved slice at all, [doAllShimmedScans] raises [TypeError]. *)
Theorem sweep_of_few_solved (currents : list (option vector))
        (scanned : nat -> bool) :
  (List.length (solved_from currents 0) <= 2)%nat ->
  ExsiGui.swept vector true currents scanned = []
  /\ ExsiGui.inner_solved vector currents = []
  /\ (solved_from currents 0 = [] ->
      ExsiGui.doAllShimmedScans vector true currents
      = ExsiGui.Raised ExsiGui.TypeError).
Proof.
  intros Hlen. unfold ExsiGui.swept, ExsiGui.doAllShimmedScans.
  rewrite count_solved_spec. unfold ExsiGui.inner_solved.
  destruct (solved_from currents 0) as [|first [|second [|third rest]]];
    simpl in Hlen |- *; try lia; repeat split; try reflexivity;
    discriminate.
Qed.

Lemma visit_runs (currents : list (option vector)) (scanned : nat -> bool)
      (idxs : list nat) :
  let (runs, e) := visit currents scanned idxs in
  (List.length runs <= List.length idxs)%nat
  /\ (e = None <-> List.length runs = List.length idxs)
  /\ Forall (fun r => ExsiGui.scans r = 2%nat
                      /\ exists v,
                          nth_error currents (ExsiGui.slice r) = Some (Some v))
            runs.
Proof.
  induction idxs as [|idx idxs IH]; simpl.
  - repeat split; auto.
  - destruct (nth_error currents idx) as [[v|]|] eqn:E.
    + destruct (visit currents scanned idxs) as [runs e].
      destruct IH as (Hle & Hiff & Hall). simpl. split; [lia|]. split.
      * rewrite Hiff. split; lia.
      * constructor; [split; [reflexivity|now exists v]|exact Hall].
    + simpl. split; [lia|]. split; [split; [discriminate|lia]|constructor].
    + simpl. split; [lia|]. split; [split; [discriminate|lia]|constructor].
Qed.

(** X15: the worker of the sweep never runs a verification on an unsolved
    slice, and each run waits for two scans; it makes at most as many runs as
    basis pairs were queued, and exactly as many if and only if it ends
    without an exception. *)
Theorem sweep_runs_against_queue (currents : list (option vector))
        (scanned : nat -> bool) (start : nat) (numindex : Z) :
  let (runs, e) :=
    ExsiGui.waitdoAllShimmedScans vector currents scanned start numindex in
  (List.length runs <= List.length (ExsiGui.queueAll start numindex))%nat
  /\ (e = None
      <-> List.length runs = List.length (ExsiGui.queueAll start numindex))
  /\ Forall (fun r => ExsiGui.scans r = 2%nat
                      /\ exists v,
                          nth_error currents (ExsiGui.slice r) = Some (Some v))
            runs.
Proof.
  unfold ExsiGui.waitdoAllShimmedScans, ExsiGui.queueAll.
  rewrite length_map. apply visit_runs.
Qed.

End SweepFacts.

(** * Properties of the scan queues and the scan counter *)

Import ExsiGuiScans.

Lemma count_turns_spec (failed arrives : nat -> bool) (k a : nat) :
  match count_turns failed arrives (seq a k) with
  | AllCompleted =>
      forall i, (a <= i < a + k)%nat -> failed i = false /\ arrives i = true
  | FailureSeen i =>
      (a <= i < a + k)%nat /\ failed i = true
      /\ forall j, (a <= j < i)%nat -> failed j = false /\ arrives j = true
  | TimedOut i =>
      (a <= i < a + k)%nat /\ failed i = false /\ arrives i = false
      /\ forall j, (a <= j < i)%nat -> failed j = false /\ arrives j = true
  end.
Proof.
  revert a; induction k as [|k IH]; intros a; simpl; [intros i Hi; lia|].
  destruct (failed a) eqn:Hf.
  - split; [lia|]. split; [exact Hf|]. intros j Hj; lia.
  - destruct (arrives a) eqn:Ha.
    + specialize (IH (S a)).
      destruct (count_turns failed arrives (seq (S a) k)) as [|i|i].
      * intros i Hi. destruct (Nat.eq_dec i a) as [->|Hne]; [now split|].
        apply IH; lia.
      * destruct IH as (Hi & Hfi & Hbefore). split; [lia|]. split; [exact Hfi|].
        intros j Hj. destruct (Nat.eq_dec j a) as [->|Hne]; [now split|].
        apply Hbefore; lia.
      * destruct IH as (Hi & Hfi & Hai & Hbefore).
        split; [lia|]. split; [exact Hfi|]. split; [exact Hai|].
        intros j Hj. destruct (Nat.eq_dec j a) as [->|Hne]; [now split|].
        apply Hbefore; lia.
    + split; [lia|]. split; [exact Hf|]. split; [exact Ha|]. intros j Hj; lia.
Qed.

(** X16: [countScansCompleted(n)] returns true exactly when, at each of its
    [n] turns, no failure was flagged and the images arrived within the
    bound; otherwise it stops at the first turn that saw a failure or ran
    out of time, having waited for no later scan. For [n = 0] it returns
    true at once. *)
Theorem countScansCompleted_spec (failed arrives : nat -> bool) (n : nat) :
  (countScansCompleted failed arrives n = true
   <-> forall i, (i < n)%nat -> failed i = false /\ arrives i = true)
  /\ match countScansCompleted_end failed arrives n with
     | AllCompleted => True
     | FailureSeen i =>
         (i < n)%nat /\ failed i = true
         /\ forall j, (j < i)%nat -> failed j = false /\ arrives j = true
     | TimedOut i =>
         (i < n)%nat /\ failed i = false /\ arrives i = false
         /\ forall j, (j < i)%nat -> failed j = false /\ arrives j = true
     end.
Proof.
  unfold countScansCompleted, countScansCompleted_end.
  pose proof (count_turns_spec failed arrives n 0) as H.
  destruct (count_turns failed arrives (seq 0 n)) as [|i|i].
  - split; [|exact I]. split; [|reflexivity]. intros _ i Hi; apply H; lia.
  - destruct H as (Hi & Hf & Hbefore). split.
    + split; [discriminate|]. intros Hall.
      destruct (Hall i) as [Hf' _]; [lia|congruence].
    + split; [lia|]. split; [exact Hf|]. intros j Hj; apply Hbefore; lia.
  - destruct H as (Hi & Hf & Ha & Hbefore). split.
    + split; [discriminate|]. intros Hall.
      destruct (Hall i) as [_ Ha']; [lia|congruence].
    + split; [lia|]. split; [exact Hf|]. split; [exact Ha|].
      intros j Hj; apply Hbefore; lia.
Qed.

Section QueueFacts.

Variable ogCenterFreq : Z.
Variable shimDeltaTE : Z.
Variable calibration_protocol : nat -> string.

Lemma basis_pair_counts (linGrad : option (list Z)) (autoPrescanDone : bool) :
  let (calls, done) :=
    queueBasisPairScanDetails ogCenterFreq shimDeltaTE linGrad
                              autoPrescanDone in
  count is_scan calls = 2%nat
  /\ count is_sel calls = 2%nat
  /\ count is_load calls = 0%nat
  /\ count is_auto_prescan calls = (if autoPrescanDone then 0 else 1)%nat
  /\ echo_times calls = [1104; 1104 + shimDeltaTE]%Z
  /\ filter (fun c => match c with sendPrescan _ => true | _ => false end)
            calls
     = [sendPrescan (negb autoPrescanDone); sendPrescan false]
  /\ done = true.
Proof.
  unfold queueBasisPairScanDetails, scan_turn.
  destruct linGrad as [[|x l]|]; destruct autoPrescanDone;
    cbn; now repeat split.
Qed.

(** X17: [queueBasisPairScanDetails] queues two scans, each after its own
    task selection, with the echo times 1104 and 1104 + [shimDeltaTE] in
    that order; it asks for an automatic prescan once, as its first prescan,
    only if none was done before, and leaves [autoPrescanDone] set. *)
Theorem basis_pair_details (linGrad : option (list Z)) (autoPrescanDone : bool) :
  let (calls, done) :=
    queueBasisPairScanDetails ogCenterFreq shimDeltaTE linGrad
                              autoPrescanDone in
  count is_scan calls = 2%nat
  /\ count is_sel calls = 2%nat
  /\ count is_load calls = 0%nat
  /\ count is_auto_prescan calls = (if autoPrescanDone then 0 else 1)%nat
  /\ echo_times calls = [1104; 1104 + shimDeltaTE]%Z
  /\ filter (fun c => match c with sendPrescan _ => true | _ => false end)
            calls
     = [sendPrescan (negb autoPrescanDone); sendPrescan false]
  /\ done = true.
Proof. apply basis_pair_counts. Qed.

Lemma count_app (f : call -> bool) (a b : list call) :
  count f (a ++ b) = (count f a + count f b)%nat.
Proof. unfold count; now rewrite filter_app, length_app. Qed.

Lemma in_turn_app (s1 s2 : list (bool -> list call * bool)) (done : bool) :
  in_turn (s1 ++ s2) done
  = let (c1, d1) := in_turn s1 done in
    let (c2, d2) := in_turn s2 d1 in
    (c1 ++ c2, d2).
Proof.
  revert done; induction s1 as [|step s1 IH]; intros done; simpl.
  - now destruct (in_turn s2 done).
  - destruct (step done) as [calls d]. rewrite IH.
    destruct (in_turn s1 d) as [c1 d1]. destruct (in_turn s2 d1) as [c2 d2].
    now rewrite app_assoc.
Qed.

Lemma calibration_pairs (numLoops first : nat) (done : bool) :
  let (calls, done') :=
    in_turn (map (queueCaliBasisPairScan ogCenterFreq shimDeltaTE
                                         calibration_protocol)
                 (seq first numLoops)) done in
  count is_scan calls = (2 * numLoops)%nat
  /\ count is_sel calls = (2 * numLoops)%nat
  /\ count is_load calls = numLoops
  /\ (count is_auto_prescan calls
      = if done then 0 else if (numLoops =? 0) then 0 else 1)%nat
  /\ done' = (if (numLoops =? 0)%nat then done else true).
Proof.
  revert first done; induction numLoops as [|n IH]; intros first done.
  - simpl; destruct done; now repeat split.
  - cbn [seq map in_turn].
    unfold queueCaliBasisPairScan at 1.
    pose proof (basis_pair_counts None done) as Hd.
    destruct (queueBasisPairScanDetails ogCenterFreq shimDeltaTE None done)
      as [calls d].
    destruct Hd as (Hs & Hsel & Hl & Ha & _ & _ & ->).
    specialize (IH (S first) true).
    destruct (in_turn _ true) as [more d'].
    destruct IH as (Hs' & Hsel' & Hl' & Ha' & Hd').
    change (sendLoadProtocol (calibration_protocol first) :: calls)
      with ([sendLoadProtocol (calibration_protocol first)] ++ calls).
    rewrite !count_app, Hs, Hsel, Hl, Ha, Hs', Hsel', Hl', Ha'.
    cbn [Nat.eqb]. unfold count; cbn [filter is_scan is_sel is_load
                                        is_auto_prescan List.length].
    destruct done; repeat split; try lia.
    all: subst d'; now destruct n.
Qed.

Lemma gradient_pairs (done : bool) :
  let (calls, done') :=
    in_turn [queueBasisPairScan ogCenterFreq shimDeltaTE (Some [20; 0; 0]%Z);
             queueBasisPairScan ogCenterFreq shimDeltaTE (Some [0; 20; 0]%Z);
             queueBasisPairScan ogCenterFreq shimDeltaTE (Some [0; 0; 20]%Z)]
            done in
  count is_scan calls = 6%nat
  /\ count is_sel calls = 6%nat
  /\ count is_load calls = 3%nat
  /\ count is_auto_prescan calls = (if done then 0 else 1)%nat
  /\ done' = true.
Proof. destruct done; cbn; now repeat split. Qed.

(** X18: the worker of the loop calibration queues as many scans as its
    waiting thread counts, two per loop plus six with the linear gradients;
    every protocol load is followed by two task selections; over the whole
    queue at most one automatic prescan is asked for, and none if one was
    done before. *)
Theorem loop_calibration_scans_match (withLinGrad : bool) (numLoops : nat)
        (autoPrescanDone : bool) :
  let (calls, done) :=
    doLoopCalibrationScans_queueAll ogCenterFreq shimDeltaTE
      calibration_protocol withLinGrad numLoops autoPrescanDone in
  count is_scan calls
  = waitLoopCalibrtationScan_num_scans withLinGrad numLoops
  /\ count is_load calls
     = (numLoops + (if withLinGrad then 3 else 0))%nat
  /\ count is_sel calls = (2 * count is_load calls)%nat
  /\ (count is_auto_prescan calls <= 1)%nat
  /\ (autoPrescanDone = true -> count is_auto_prescan calls = 0%nat).
Proof.
  unfold doLoopCalibrationScans_queueAll, waitLoopCalibrtationScan_num_scans.
  rewrite in_turn_app.
  destruct withLinGrad.
  - pose proof (gradient_pairs autoPrescanDone) as Hg.
    destruct (in_turn _ autoPrescanDone) as [first d].
    destruct Hg as (Hs & Hsel & Hl & Ha & ->).
    pose proof (calibration_pairs numLoops 0 true) as Hc.
    cbv beta iota.
    destruct (in_turn _ true) as [more d'].
    destruct Hc as (Hs' & Hsel' & Hl' & Ha' & _).
    cbv beta iota.
    rewrite !count_app, Hs, Hsel, Hl, Ha, Hs', Hsel', Hl', Ha'.
    destruct autoPrescanDone; repeat split; try lia; discriminate.
  - change (in_turn [] autoPrescanDone) with (@nil call, autoPrescanDone).
    cbv beta iota.
    pose proof (calibration_pairs numLoops 0 autoPrescanDone) as Hc.
    destruct (in_turn _ autoPrescanDone) as [more d'].
    destruct Hc as (Hs & Hsel & Hl & Ha & _).
    change ([] ++ more) with more. rewrite Hs, Hsel, Hl, Ha.
    destruct autoPrescanDone, (numLoops =? 0)%nat; repeat split; try lia;
      discriminate.
Qed.

End QueueFacts.

Section EvaluationFacts.

Variable ogCenterFreq : Z.
Variable shimDeltaTE : Z.
Variable R : Type.
Variable round_int : R -> Z.
Variable eval_protocol : nat -> R -> string.

Local Abbreviation eval_loops :=
  (ExsiGuiScans.eval_loops ogCenterFreq shimDeltaTE R eval_protocol).
Local Abbreviation queueAll :=
  (doEvalAppliedShims_queueAll ogCenterFreq shimDeltaTE R round_int
                               eval_protocol).

Lemma entry_some (v : list R) (k : nat) :
  (k < List.length v)%nat -> exists x, entry R (Some v) k = inr x.
Proof.
  intros H; unfold entry.
  destruct (nth_error v k) as [x|] eqn:E; [now exists x|].
  apply nth_error_None in E; lia.
Qed.

Lemma entry_past_end (v : list R) (k : nat) :
  (List.length v <= k)%nat -> entry R (Some v) k = inl IndexError.
Proof.
  intros H; unfold entry.
  now rewrite (proj2 (nth_error_None v k) H).
Qed.

Lemma eval_loops_long (v : list R) (n a : nat) (done : bool) :
  (a + n + 4 <= List.length v)%nat ->
  exists calls done',
    eval_loops (Some v) (seq a n) done = (calls, done', None)
    /\ count is_scan calls = (2 * n)%nat
    /\ count is_load calls = n.
Proof.
  revert a done; induction n as [|n IH]; intros a done H.
  - exists [], done; now repeat split.
  - cbn [seq ExsiGuiScans.eval_loops].
    destruct (entry_some v (a + 4)) as [x ->]; [lia|].
    pose proof (basis_pair_counts ogCenterFreq shimDeltaTE None done) as Hd.
    destruct (queueBasisPairScanDetails ogCenterFreq shimDeltaTE None done)
      as [calls d].
    destruct Hd as (Hs & _ & Hl & _).
    destruct (IH (S a) d) as (more & d' & -> & Hs' & Hl'); [lia|].
    eexists; eexists; split; [reflexivity|].
    change (sendLoadProtocol (eval_protocol a x) :: calls ++ more)
      with ([sendLoadProtocol (eval_protocol a x)] ++ calls ++ more).
    rewrite !count_app, Hs, Hl, Hs', Hl'. unfold count; simpl; lia.
Qed.

Lemma eval_loops_short (v : list R) (n a : nat) (done : bool) :
  (1 <= n)%nat -> (List.length v < a + n + 4)%nat ->
  exists calls done',
    eval_loops (Some v) (seq a n) done = (calls, done', Some IndexError).
Proof.
  revert a done; induction n as [|n IH]; intros a done Hn H; [lia|].
  cbn [seq ExsiGuiScans.eval_loops].
  destruct (Nat.le_gt_cases (List.length v) (a + 4)) as [Hshort|Hlong].
  - rewrite entry_past_end by exact Hshort. now eexists; eexists.
  - destruct (entry_some v (a + 4)) as [x ->]; [lia|].
    destruct (queueBasisPairScanDetails ogCenterFreq shimDeltaTE None done)
      as [calls d].
    destruct (IH (S a) d) as (more & d' & ->); [lia|lia|].
    now eexists; eexists.
Qed.

(** X19: when the vector of the selected slice has an entry for every loop
    ([numLoops + 4] entries at least), the worker of the shim evaluation
    raises nothing and queues two scans for the plain basis pair, six for
    the gradients when they are on, and two per loop: as many as the waiting
    thread counts when the linear gradients are on, and two more than it
    counts when they are off. *)
Theorem eval_applied_scans (withLinGrad : bool) (numLoops : nat)
        (v : list R) (autoPrescanDone : bool) :
  (numLoops + 4 <= List.length v)%nat ->
  exists calls done,
    queueAll withLinGrad numLoops (Some v) autoPrescanDone
    = (calls, done, None)
    /\ count is_scan calls
       = (waitdoEvalAppliedShims_num_scans withLinGrad numLoops
          + (if withLinGrad then 0 else 2))%nat.
Proof.
  intros Hlen. unfold doEvalAppliedShims_queueAll.
  destruct (entry_some v 0) as [c0 ->]; [lia|].
  unfold queueBasisPairScan at 1.
  pose proof (basis_pair_counts ogCenterFreq shimDeltaTE None
                                autoPrescanDone) as Hd.
  destruct (queueBasisPairScanDetails ogCenterFreq shimDeltaTE None
                                      autoPrescanDone) as [pair d].
  destruct Hd as (Hs & _ & _ & _ & _ & _ & ->).
  unfold waitdoEvalAppliedShims_num_scans.
  destruct withLinGrad.
  - destruct (entry_some v 1) as [c1 ->]; [lia|]. cbv zeta.
    set (steps := [_; _; _]).
    assert (Hg : exists grads, in_turn steps true = (grads, true)
                               /\ count is_scan grads = 6%nat).
    { eexists; split; [reflexivity|]. reflexivity. }
    destruct Hg as (grads & -> & Hg).
    destruct (eval_loops_long v numLoops 0 true) as (loops & d' & -> & Hl & _);
      [lia|].
    eexists; eexists; split; [reflexivity|].
    change (sendLoadProtocol "ConformalShimCalibration3" :: pair)
      with ([sendLoadProtocol "ConformalShimCalibration3"] ++ pair).
    rewrite !count_app, Hs, Hg, Hl. unfold count; simpl; lia.
  - destruct (eval_loops_long v numLoops 0 true) as (loops & d' & -> & Hl & _);
      [lia|].
    eexists; eexists; split; [reflexivity|].
    change (sendLoadProtocol "ConformalShimCalibration3" :: pair)
      with ([sendLoadProtocol "ConformalShimCalibration3"] ++ pair).
    rewrite !count_app, Hs, Hl. unfold count; simpl; lia.
Qed.

(** X20: for an unsolved slice the worker of the shim evaluation raises
    [TypeError] before it queues anything; for a vector with fewer than
    [numLoops + 4] entries (and at least one loop) it raises [IndexError],
    part of the way through its queue. *)
Theorem eval_applied_short_vector (withLinGrad : bool) (numLoops : nat)
        (autoPrescanDone : bool) :
  queueAll withLinGrad numLoops None autoPrescanDone
  = ([], autoPrescanDone, Some TypeError)
  /\ forall v,
      (1 <= numLoops)%nat -> (List.length v < numLoops + 4)%nat ->
      exists calls done,
        queueAll withLinGrad numLoops (Some v) autoPrescanDone
        = (calls, done, Some IndexError).
Proof.
  split; [reflexivity|]. intros v Hn Hlen.
  unfold doEvalAppliedShims_queueAll.
  destruct (Nat.le_gt_cases (List.length v) 0) as [H0|H0].
  { rewrite entry_past_end by exact H0. now eexists; eexists. }
  destruct (entry_some v 0) as [c0 ->]; [lia|].
  destruct (queueBasisPairScan ogCenterFreq shimDeltaTE None autoPrescanDone)
    as [pair d].
  destruct withLinGrad.
  - destruct (Nat.le_gt_cases (List.length v) 1) as [H1|H1].
    { rewrite entry_past_end by exact H1. now eexists; eexists. }
    destruct (entry_some v 1) as [c1 ->]; [lia|]. cbv zeta.
    destruct (in_turn _ d) as [grads d1].
    destruct (eval_loops_short v numLoops 0 d1) as (loops & d' & ->);
      [lia|lia|].
    now eexists; eexists.
  - destruct (eval_loops_short v numLoops 0 d) as (loops & d' & ->);
      [lia|lia|].
    now eexists; eexists.
Qed.

End EvaluationFacts.

(** * Concrete runs of the further properties *)

Lemma failure_keeps_task_queue_witness :
  let c := set_task_queue ["7"]
             (set_command_queue [Some "Scan"]
                (set_last_command (Some "Prescan auto") init)) in
  let c' := fst (receive_iteration prescan_as_read (Data "x<Prescan=failed") c) in
  task_queue c' = task_queue c
  /\ counter c' = counter c
  /\ last_command c' = Some "Prescan auto"
  /\ running c' = running c
  /\ output_file c'
     = output_file c
         ++ [("Received: " ++ rcv "x<Prescan=failed" ++ "
")%string;
             ("Command Failed: " ++ "Prescan auto" ++ "
Clearing Command Queue

")%string;
             "Command queue cleared due to failure.
"].
Proof.
  apply (failure_keeps_task_queue prescan_as_read "Prescan auto"
           "x<Prescan=failed"); reflexivity.
Defined.

Lemma receive_after_sentinel_ends_loop_witness :
  exists c',
    receive_iteration prescan_as_read (Data "<NotifyEvent")
                      (set_last_command None init)
    = (c', false)
    /\ command_queue c' = command_queue (set_last_command None init)
    /\ ready_event c' = ready_event (set_last_command None init)
    /\ task_queue c' = task_queue (set_last_command None init).
Proof.
  apply (receive_after_sentinel_ends_loop prescan_as_read "<NotifyEvent"
           (set_last_command None init)); [reflexivity|discriminate].
Defined.

Lemma receive_loop_quiet_witness :
  receive_loop prescan_as_read [SocketTimeout; Data "junk<"; SocketTimeout]
               init
  = init.
Proof.
  apply (receive_loop_quiet prescan_as_read
           [SocketTimeout; Data "junk<"; SocketTimeout] init).
  constructor; [left; reflexivity|].
  constructor; [right; exists "junk<"; split; reflexivity|].
  constructor; [left; reflexivity|constructor].
Defined.

Lemma one_send_at_most_once_stopped_witness :
  let s := run prescan_as_read [Process; CallSend "Scan" false; CallStop]
               start in
  let s' := run prescan_as_read [Process; Process; Process; Process] s in
  (cp s = Getting /\ running (ch s) = false)
  /\ running (ch s') = false
  /\ exists more,
      sent (trace s') = sent (trace s) ++ more
      /\ (List.length more <= may_send (cp s))%nat
      /\ (List.length more <= 1)%nat.
Proof.
  split; [split; vm_compute; reflexivity|].
  apply (one_send_at_most_once_stopped prescan_as_read
           [Process; Process; Process; Process]
           (run prescan_as_read [Process; CallSend "Scan" false; CallStop]
                start)).
  vm_compute; reflexivity.
Defined.

(** The command processor inside [get] when the running flag is cleared
    still sends the command it finds on the queue. *)
Example stopped_worker_sends_once :
  let s := run prescan_as_read [Process; CallSend "Scan" false; CallStop]
               start in
  running (ch s) = false
  /\ trace s = []
  /\ trace (run prescan_as_read [Process; Process] s) = [Sent "Scan"].
Proof. evaluate. Qed.

Lemma frames_in_sequence_witness :
  exists c',
    send_each ["Scan"; "Help"] init = Returns tt c'
    /\ s_out c'
       = s_out init
           ++ ([0; 16; 3; 232; 0; 0; 0; 20; 0; 0; 0; 0; 0; 0; 0; 100]%Z
                 ++ Py.encode ">heartvista:1:0>Scan"
                 ++ [0; 16; 3; 232; 0; 0; 0; 20; 0; 0; 0; 0; 0; 0; 0; 100]%Z
                 ++ Py.encode ">heartvista:1:1>Help")
    /\ counter c' = (counter init + List.length ["Scan"; "Help"])%nat.
Proof.
  apply (frames_in_sequence ["Scan"; "Help"] _ init).
  vm_compute; reflexivity.
Defined.

Lemma sweep_of_unbroken_run_witness :
  let currents := repeat None 2 ++ map Some [tt; tt; tt; tt] ++ repeat None 1 in
  let n := List.length [tt; tt; tt; tt] in
  ExsiGui.doAllShimmedScans unit true currents
  = ExsiGui.Started (2 + 1) (Z.of_nat n - 2)
  /\ ExsiGui.waitdoAllShimmedScans unit currents (fun _ => true)
       (2 + 1) (Z.of_nat n - 2)
     = (map (fun idx => ExsiGui.Run idx 2 true) (seq (2 + 1) (n - 2)), None)
  /\ ExsiGui.swept unit true currents (fun _ => true) = seq (2 + 1) (n - 2)
  /\ ExsiGui.inner_solved unit currents = seq (2 + 1) (n - 2)
  /\ List.length (ExsiGui.queueAll (2 + 1) (Z.of_nat n - 2)) = (n - 2)%nat.
Proof.
  apply (sweep_of_unbroken_run unit 2 1 [tt; tt; tt; tt] (fun _ => true)).
  discriminate.
Defined.

Lemma sweep_of_few_solved_witness :
  ExsiGui.swept unit true [None; Some tt; Some tt] (fun _ => true) = []
  /\ ExsiGui.inner_solved unit [None; Some tt; Some tt] = []
  /\ (ExsiGui.solved_from unit [None; Some tt; Some tt] 0 = [] ->
      ExsiGui.doAllShimmedScans unit true [None; Some tt; Some tt]
      = ExsiGui.Raised ExsiGui.TypeError).
Proof.
  apply (sweep_of_few_solved unit [None; Some tt; Some tt] (fun _ => true)).
  simpl; lia.
Defined.

Lemma eval_applied_scans_witness :
  exists calls done,
    doEvalAppliedShims_queueAll 0 500 Z (fun x => x) (fun _ _ => "p")
                                false 2 (Some [1; 2; 3; 4; 5; 6]%Z) false
    = (calls, done, None)
    /\ count is_scan calls
       = (waitdoEvalAppliedShims_num_scans false 2 + 2)%nat.
Proof.
  apply (eval_applied_scans 0 500 Z (fun x => x) (fun _ _ => "p")
                            false 2 [1; 2; 3; 4; 5; 6]%Z false).
  simpl; lia.
Defined.

(** ** An immediate send while a queued command is in flight *)

Section ImmediateSend.

Variable prescan_ready : string -> bool.

(** X12: an immediate [send] made after the command processor has sent a
    command and before it enters [ready_event.wait] clears the readiness
    event, set or not, and replaces [last_command], leaving the command
    queue alone; the command processor then blocks in the wait, and if that
    ends before a further message sets the event it takes it for a timeout
    and ends. *)
Theorem immediate_send_loses_readiness (s : sys) (cmd : string) :
  cp s = Entering ->
  let s' := step prescan_ready s (CallSend cmd true) in
  ready_event (ch s') = false
  /\ last_command (ch s') = Some cmd
  /\ command_queue (ch s') = command_queue (ch s)
  /\ cp s' = Entering
  /\ cp (step prescan_ready s' Process) = Waiting
  /\ cp (run prescan_ready [Process; Process] s') = Ended.
Proof.
  intros Hcp s'.
  destruct (_send_command_frame (Some cmd) (ch s))
    as (_ & _ & _ & _ & Hev & Hlast & _).
  assert (Hev' : ready_event (ch s') = false) by exact Hev.
  assert (Hcp' : cp s' = Entering) by exact Hcp.
  split; [exact Hev'|]. split; [exact Hlast|].
  split; [apply (_send_command_queue (Some cmd) (ch s))|].
  split; [exact Hcp'|].
  assert (Hw : step prescan_ready s' Process
               = Sys (ch s') Waiting (receiving s') (enqueued s')
                     (discarded s' ++ []) (trace s' ++ [])).
  { unfold step at 1. rewrite Hcp'; cbn [process_commands]. now rewrite Hev'. }
  split; [now rewrite Hw|].
  unfold run; cbn [fold_left]. rewrite Hw.
  unfold step at 1; cbn [cp ch]. now rewrite timeout_on_processor_thread.
Qed.

(** A waiter the receive loop has already signalled is past that: its wait
    returns though the immediate [send] has cleared the event. *)
Lemma immediate_send_after_signal (s : sys) (cmd : string) :
  cp s = Woken ->
  let s' := step prescan_ready
                 (step prescan_ready s (CallSend cmd true)) Process in
  cp s' = Polling /\ trace s' = trace s ++ [Resolved].
Proof.
  intros Hcp; unfold step at 1; cbn [cp ch trace step].
  rewrite Hcp; cbn [process_commands wait_for_ready modify cp trace].
  now split.
Qed.

End ImmediateSend.

Lemma immediate_send_loses_readiness_witness :
  let s := run prescan_as_read
               [CallSend "Scan" false; Process; Process; Process;
                Receive (Data "<acquisition=complete")]
               start in
  let s' := step prescan_as_read s (CallSend "GetExamInfo" true) in
  (trace s = [Sent "Scan"; Signalled] /\ ready_event (ch s) = true)
  /\ ready_event (ch s') = false
  /\ last_command (ch s') = Some "GetExamInfo"
  /\ command_queue (ch s') = command_queue (ch s)
  /\ cp s' = Entering
  /\ cp (step prescan_as_read s' Process) = Waiting
  /\ cp (run prescan_as_read [Process; Process] s') = Ended.
Proof.
  split; [split; vm_compute; reflexivity|].
  apply (immediate_send_loses_readiness prescan_as_read
           (run prescan_as_read
                [CallSend "Scan" false; Process; Process; Process;
                 Receive (Data "<acquisition=complete")]
                start)
           "GetExamInfo").
  vm_compute; reflexivity.
Defined.
